(** * TensorFlow frontend: translation pipeline of [frontend.cpp]

    A shallow embedding of [src/frontends/tensorflow/src/frontend.cpp]:
    the unsupported-operation / failure collector, the targeted
    re-translation of framework nodes, the two conversion entry points,
    the normalization pipeline and the extension registry. *)

From stdpp Require Import base strings gmap list.

Local Open Scope string_scope.
Local Open Scope list_scope.
Set Warnings "-register-all".

(** ** Exceptions and the effect monad *)

(** The exception kinds the file raises or lets through. *)
Inductive Exn : Type :=
| GeneralFailure (msg : string)        (* FRONT_END_GENERAL_CHECK *)
| OpConversionFailure (msg : string)   (* FRONT_END_OP_CONVERSION_CHECK *)
| StdException (what : string).        (* any other std::exception *)

Definition what (e : Exn) : string :=
  match e with
  | GeneralFailure m | OpConversionFailure m | StdException m => m
  end.

Definition Result (A : Type) : Type := Exn + A.

(** Effects that leave a FrontEnd call: a pass run by a pass manager and
    an event handed to the telemetry sink. *)
Inductive Event : Type :=
| EvPass (name : string)
| EvSendEvent (category action : string).

(** A computation yields the effects it performed, in order, and then
    either an exception or a value. *)
Definition M (A : Type) : Type := list Event * Result A.

Definition ret {A} (a : A) : M A := ([], inr a).
Definition raise {A} (e : Exn) : M A := ([], inl e).
Definition emit (ev : Event) : M unit := ([ev], inr tt).
Definition bind {A B} (c : M A) (k : A → M B) : M B :=
  match c with
  | (t, inl e) => (t, inl e)
  | (t, inr a) => let '(t', r) := k a in (t ++ t', r)
  end.

Notation "'let*' x ':=' c 'in' k" := (bind c (fun x => k))
  (at level 10, x name, c at level 100, k at level 200, only parsing).
Notation "'run' c 'in' k" := (bind c (fun _ => k))
  (at level 10, c at level 100, k at level 200, only parsing).

Definition trace {A} (c : M A) : list Event := fst c.
Definition outcome {A} (c : M A) : Result A := snd c.

(** [for (x : xs) body(x)] over a state threaded through the loop. *)
Fixpoint for_each {A S} (xs : list A) (body : A → S → M S) (s : S) : M S :=
  match xs with
  | [] => ret s
  | x :: xs' => let* s' := body x s in for_each xs' body s'
  end.

(** ** The decoded graph and the IR graph *)

(** An output port of an IR node: the node's identity and the port index. *)
Definition Output : Type := nat * nat.
Definition OutputVector : Type := list Output.

(** A decoded node of the source graph (the decoder a framework node keeps). *)
Inductive Decoder : Type :=
| mkDecoder (op_type : string)
            (inputs : list (nat * nat))
            (attributes : list (string * string))
            (output_arity : nat)
            (nested_subgraphs : list (list Decoder)).

Definition get_op_type (d : Decoder) : string :=
  match d with mkDecoder t _ _ _ _ => t end.
Definition decoder_inputs (d : Decoder) : list (nat * nat) :=
  match d with mkDecoder _ i _ _ _ => i end.
Definition output_arity (d : Decoder) : nat :=
  match d with mkDecoder _ _ _ n _ => n end.
Definition nested_subgraphs (d : Decoder) : list (list Decoder) :=
  match d with mkDecoder _ _ _ _ s => s end.

(** An IR node as the file sees it through its down-casts:
    - [Op]: both [as_type_ptr<FrameworkNode>] and
      [as_type_ptr<MultiSubGraphOp>] fail;
    - [MultiSubGraphOp]: only the second cast succeeds;
    - [FrameworkNode]: both succeed (the framework node class derives from
      the multi-subgraph base), it carries its decoder and attributes.
    A model is the sequence [get_ordered_ops()] returns. *)
Inductive Node : Type :=
| Op (id : nat) (type_name : string) (inputs : OutputVector) (outputs_size : nat)
| MultiSubGraphOp (id : nat) (type_name : string) (inputs : OutputVector)
                  (outputs_size : nat) (bodies : list (list Node))
| FrameworkNode (id : nat) (decoder : Decoder) (attrs : gmap string string)
                (inputs : OutputVector) (outputs_size : nat)
                (bodies : list (list Node)).

Definition Model : Type := list Node.
Definition get_ordered_ops (model : Model) : list Node := model.

(** [ov::NodeVector]: node objects, here the ones alive while a graph is
    rewired in place, in creation order.  Rewiring redirects inputs and
    adds nodes; it removes no object.  Which of the objects the model still
    reaches, and in which order, is for [get_ordered_ops] to say when it is
    called again. *)
Definition NodeVector : Type := list Node.

Definition node_id (n : Node) : nat :=
  match n with
  | Op i _ _ _ | MultiSubGraphOp i _ _ _ _ | FrameworkNode i _ _ _ _ _ => i
  end.
Definition node_inputs (n : Node) : OutputVector :=
  match n with
  | Op _ _ i _ | MultiSubGraphOp _ _ i _ _ | FrameworkNode _ _ _ i _ _ => i
  end.
Definition get_output_size (n : Node) : nat :=
  match n with
  | Op _ _ _ k | MultiSubGraphOp _ _ _ k _ | FrameworkNode _ _ _ _ k _ => k
  end.
Definition is_FrameworkNode (n : Node) : bool :=
  match n with FrameworkNode _ _ _ _ _ _ => true | _ => false end.

(** Modelled from the spec: the attribute key under which a framework node
    stores the failure message of its translator
    ([FrameworkNode::failed_conversion_key], declared in
    [tf_framework_node.hpp]); only its identity matters. *)
Definition failed_conversion_key : string :=
  "tensorflow::FrameworkNode::failed_conversion_key".

(** ** The unsupported-operation / failure collector *)

Record Report : Type := mkReport {
  unsupported_operations : list string;
  failures : gmap string string
}.

Definition empty_report : Report := mkReport [] ∅.

(** The body of [if (fw_node = as_type_ptr<FrameworkNode>(node))]: the first
    arm is the [if] (the failure key is among the attributes and the op type
    has no recorded failure), the second the [else if] on the unsupported
    list. *)
Definition record_framework_node (op_type : string)
    (fw_node_attrs : gmap string string) (r : Report) : Report :=
  match fw_node_attrs !! failed_conversion_key, failures r !! op_type with
  | Some msg, None =>
      mkReport (unsupported_operations r) (<[op_type := msg]> (failures r))
  | _, _ =>
      if decide (op_type ∈ unsupported_operations r) then r
      else mkReport (unsupported_operations r ++ [op_type]) (failures r)
  end.

(** [get_unsupported_operations_and_failures], one node of the loop: the
    framework-node branch, then the nested subgraphs of a multi-subgraph
    node; the two output parameters are the threaded [Report]. *)
Fixpoint collect_node (node : Node) (r : Report) : Report :=
  let collect_bodies (bodies : list (list Node)) (r : Report) :=
    fold_left (fun r body => fold_left (fun r n => collect_node n r) body r)
              bodies r in
  match node with
  | Op _ _ _ _ => r
  | MultiSubGraphOp _ _ _ _ bodies => collect_bodies bodies r
  | FrameworkNode _ decoder attrs _ _ bodies =>
      collect_bodies bodies (record_framework_node (get_op_type decoder) attrs r)
  end.

Definition get_unsupported_operations_and_failures (model : Model)
    (r : Report) : Report :=
  fold_left (fun r n => collect_node n r) (get_ordered_ops model) r.

(** The placeholders of a graph as (op-type tag, attributes), in the order
    of a traversal that goes through a node's nested subgraphs right after
    the node itself. *)
Definition Placeholder : Type := string * gmap string string.

Fixpoint placeholders_of_node (node : Node) : list Placeholder :=
  let of_bodies (bodies : list (list Node)) :=
    concat (map (fun body => concat (map placeholders_of_node body)) bodies) in
  match node with
  | Op _ _ _ _ => []
  | MultiSubGraphOp _ _ _ _ bodies => of_bodies bodies
  | FrameworkNode _ decoder attrs _ _ bodies =>
      (get_op_type decoder, attrs) :: of_bodies bodies
  end.

Definition placeholders (model : Model) : list Placeholder :=
  concat (map placeholders_of_node model).

Definition failure_message (p : Placeholder) : option string :=
  snd p !! failed_conversion_key.

(** ** Translators and the translator dictionary *)

Record NamedOutput : Type := mkNamedOutput { name : string; port : Output }.
Definition NamedOutputVector : Type := list NamedOutput.

(** [NodeContext(decoder, ov_inputs)]. *)
Record NodeContext : Type := mkNodeContext {
  ctx_decoder : Decoder;
  ctx_inputs : OutputVector
}.

(** A translator builds IR nodes and returns output ports, or throws.  The
    nodes it builds are returned next to the ports; the [nat] argument is
    the first node identity not in use (a fresh object in the source). *)
Definition CreatorFunctionIndexed : Type :=
  NodeContext → nat → Result (list Node * OutputVector).
Definition CreatorFunctionNamedAndIndexed : Type :=
  NodeContext → nat → Result (list Node * NamedOutputVector).

Inductive CreatorFunction : Type :=
| Indexed (f : CreatorFunctionIndexed)
| NamedAndIndexed (f : CreatorFunctionNamedAndIndexed).

(** Modelled from the spec: [CreatorFunction::operator()] (declared with the
    conversion extension, outside this file); "the two translator shapes are
    polymorphic over a single capability": an indexed translator's ports
    come back as named outputs with an empty name. *)
Definition call_creator (c : CreatorFunction) (ctx : NodeContext)
    (fresh : nat) : Result (list Node * NamedOutputVector) :=
  match c with
  | Indexed f =>
      match f ctx fresh with
      | inl e => inl e
      | inr (built, outs) => inr (built, map (mkNamedOutput EmptyString) outs)
      end
  | NamedAndIndexed f => f ctx fresh
  end.

Abbreviation TranslatorDictionaryType := (gmap string CreatorFunction).

(** ** Wiring of the IR graph *)

Definition map_inputs (f : Output → Output) (n : Node) : Node :=
  match n with
  | Op i t ins k => Op i t (map f ins) k
  | MultiSubGraphOp i t ins k b => MultiSubGraphOp i t (map f ins) k b
  | FrameworkNode i d a ins k b => FrameworkNode i d a (map f ins) k b
  end.

Definition fresh_id (g : NodeVector) : nat :=
  S (foldr Nat.max 0 (map node_id g)).

(** [node->input_values()]: the sources the node's inputs have now. *)
Definition input_values (g : NodeVector) (node : Node) : OutputVector :=
  match find (fun n => bool_decide (node_id n = node_id node)) g with
  | Some n => node_inputs n
  | None => node_inputs node
  end.

(** [node->outputs()]: the node's output ports in index order. *)
Definition outputs (node : Node) : OutputVector :=
  map (fun i => (node_id node, i)) (seq 0 (get_output_size node)).

(** Modelled from the spec: [Output<Node>::replace] of the core library,
    "rewire every existing consumer of the Placeholder's corresponding
    output port to the new output": every input whose source is
    [old_output] gets [replacement] as its source. *)
Definition replace (old_output replacement : Output) (g : NodeVector)
    : NodeVector :=
  map (map_inputs (fun src => if decide (src = old_output) then replacement
                              else src)) g.

(** The loop at the end of [translate_framework_node]: both iterators
    advance together and the loop stops when either is exhausted. *)
Fixpoint replace_outputs (new_node_outputs : NamedOutputVector)
    (old_outputs : OutputVector) (g : NodeVector) : NodeVector :=
  match new_node_outputs, old_outputs with
  | new_output :: news, old_output :: olds =>
      replace_outputs news olds (replace old_output (port new_output) g)
  | _, _ => g
  end.

Definition no_translator_message (type : string) : string :=
  "No translator found for " +:+ type +:+ " node.".

(** [translate_framework_node(node, op_translators)] on the node objects
    [g] alive when it is called: the nodes the translator built join them,
    then the consumers of [node] are rewired.  [node] itself stays an
    object among the others, read or not: the function does not touch the
    model, and the result is not [get_ordered_ops] of any model.  The
    parameter is a framework node in the source; other nodes are left
    alone. *)
Definition translate_framework_node (node : Node)
    (op_translators : TranslatorDictionaryType) (g : NodeVector)
    : Result NodeVector :=
  match node with
  | FrameworkNode _ decoder _ _ _ _ =>
      let type := get_op_type decoder in
      match op_translators !! type with
      | None => inl (OpConversionFailure (no_translator_message type))
      | Some translator =>
          let ov_inputs := input_values g node in
          let node_ctx := mkNodeContext decoder ov_inputs in
          match call_creator translator node_ctx (fresh_id g) with
          | inl e => inl e
          | inr (built, new_node_outputs) =>
              inr (replace_outputs new_node_outputs (outputs node)
                                   (g ++ built))
          end
      end
  | _ => inr g
  end.

(** ** The translation session *)

Inductive InputModelPtr : Type :=
| InputModelTF (ordered_nodes : list Decoder)   (* tensorflow::InputModel *)
| InputModelOther.                              (* any other InputModel *)

(** [std::dynamic_pointer_cast<InputModel>(model)]. *)
Definition as_InputModel (model : InputModelPtr) : option (list Decoder) :=
  match model with
  | InputModelTF nodes => Some nodes
  | InputModelOther => None
  end.

Record SessionState : Type := mkSession {
  ss_model : Model;                      (* IR nodes built so far *)
  ss_outputs : list NamedOutputVector    (* IR outputs of each visited node *)
}.

Definition empty_session : SessionState := mkSession [] [].

Definition resolve (bound : list NamedOutputVector) (ref : nat * nat)
    : Output :=
  match bound !! ref.1 with
  | Some outs => match outs !! ref.2 with
                 | Some o => port o
                 | None => (0, ref.2)
                 end
  | None => (0, ref.2)
  end.

Definition set_bodies (bodies : list Model) (n : Node) : Node :=
  match n with
  | Op i t ins k => Op i t ins k
  | MultiSubGraphOp i t ins k _ => MultiSubGraphOp i t ins k bodies
  | FrameworkNode i d a ins k _ => FrameworkNode i d a ins k bodies
  end.

Definition attach_bodies (bodies : list Model) (outs : NamedOutputVector)
    (built : list Node) : list Node :=
  match bodies, outs with
  | _ :: _, o :: _ =>
      map (fun n => if decide (node_id n = (port o).1) then set_bodies bodies n
                    else n) built
  | _, _ => built
  end.

(** Modelled from the spec: one step of the Translation Session
    ([TranslateSession], [translate_session.cpp], is not part of this
    file).  "Build a NodeContext binding already-computed IR outputs for
    each of its inputs.  Look up the translator for its op-type tag.  If
    absent, create a Placeholder Node marked unsupported, with the
    Placeholder's arity matching the Decoded Node's declared output arity.
    If present, invoke it.  If it raises, catch the error, create a
    Placeholder Node marked failed (storing the error text), with the same
    arity fallback.  If it returns normally, bind its outputs.  If the
    Decoded Node owns nested subgraphs, recursively run a Translation
    Session on each nested subgraph using the same registry snapshot, and
    attach the resulting nested IR Graphs to the produced IR node (real or
    Placeholder)"; for a real translation the produced node is taken to be
    the one that owns the first bound output. *)
Fixpoint translate_node (translator_map : TranslatorDictionaryType)
    (d : Decoder) (st : SessionState) : SessionState :=
  match d with
  | mkDecoder op_type inputs _ arity nested =>
      let bodies :=
        map (fun body =>
               ss_model (fold_left
                           (fun s d' => translate_node translator_map d' s)
                           body empty_session)) nested in
      let ov_inputs := map (resolve (ss_outputs st)) inputs in
      let id := fresh_id (ss_model st) in
      let placeholder attrs :=
        let fw := FrameworkNode id d attrs ov_inputs arity bodies in
        mkSession (ss_model st ++ [fw])
                  (ss_outputs st ++ [map (mkNamedOutput EmptyString) (outputs fw)]) in
      match translator_map !! op_type with
      | None => placeholder ∅
      | Some translator =>
          match call_creator translator (mkNodeContext d ov_inputs) id with
          | inl e => placeholder {[ failed_conversion_key := what e ]}
          | inr (built, outs) =>
              mkSession (ss_model st ++ attach_bodies bodies outs built)
                        (ss_outputs st ++ [outs])
          end
      end
  end.

Definition translate_graph (translator_map : TranslatorDictionaryType)
    (ordered_nodes : list Decoder) : Model :=
  ss_model (fold_left (fun s d => translate_node translator_map d s)
                      ordered_nodes empty_session).

(** Modelled from the spec: [TranslateSession::get_converted_model].  "An IR
    Graph, never failing as a whole"; a model handle of another kind is the
    InvalidInputModel error. *)
Definition get_converted_model (model : InputModelPtr)
    (translator_map : TranslatorDictionaryType) : Result Model :=
  match as_InputModel model with
  | None => inl (GeneralFailure "Invalid input model")
  | Some ordered_nodes => inr (translate_graph translator_map ordered_nodes)
  end.

(** ** Passes and extensions *)

(** A graph-rewrite pass: opaque to this file but for its name and its
    effect on the model it is run on. *)
Record Pass : Type := mkPass {
  pass_name : string;
  run_on_model : Model → Model
}.

(** [ov::pass::Manager]: the registered passes, in registration order. *)
Definition Manager : Type := list Pass.

Definition run_passes (manager : Manager) (model : Model) : M Model :=
  (map (fun p => EvPass (pass_name p)) manager,
   inr (fold_left (fun f p => run_on_model p f) manager model)).

(** The passes [normalize] registers; their bodies live in other files. *)
Record PassLibrary : Type := mkPassLibrary {
  SavedModelUnusedRemover : Model → Model;
  EmbeddingSegmentSingleFeatureFusion : Model → Model;
  BlockLSTMReplacer : Model → Model;
  GRUBlockCellReplacer : Model → Model;
  ConstToResultRemover : Model → Model;
  TransposeSinkingGeneral : Model → Model;
  ReverseShapeAndTypeInfer : Model → Model
}.

Record TelemetryExtension : Type := mkTelemetry { sink : nat }.

(** [transformation->register_pass(manager)] adds these passes. *)
Record DecoderTransformationExtension : Type := mkTransformation {
  register_pass : list Pass
}.

Module frontend.
(** [ov::frontend::ConversionExtension]: each converter may be unset. *)
Record ConversionExtension : Type := mkConversionExtension {
  get_op_type : string;
  get_converter : option CreatorFunctionIndexed;
  get_converter_named :
    option (NodeContext → nat → Result (list Node * list (string * OutputVector)));
  get_converter_named_and_indexed : option CreatorFunctionNamedAndIndexed
}.
End frontend.

Module tensorflow.
(** [ov::frontend::tensorflow::ConversionExtension]. *)
Record ConversionExtension : Type := mkConversionExtension {
  get_op_type : string;
  get_converter : CreatorFunction
}.
End tensorflow.

(** An extension object, seen through the five [dynamic_pointer_cast]s of
    [add_extension]; a shared-object extension wraps another extension. *)
Inductive Extension : Type :=
| mkExtension (as_telemetry : option TelemetryExtension)
              (as_transformation : option DecoderTransformationExtension)
              (as_so_extension : option Extension)
              (as_conversion : option frontend.ConversionExtension)
              (as_tf_conversion : option tensorflow.ConversionExtension).

Definition ConversionExtensionBase : Type :=
  frontend.ConversionExtension + tensorflow.ConversionExtension.

(** The members of [FrontEnd]. *)
Record FrontEnd : Type := mkFrontEnd {
  m_telemetry : option TelemetryExtension;
  m_transformation_extensions : list DecoderTransformationExtension;
  m_extensions : list Extension;
  m_conversion_extensions : list ConversionExtensionBase;
  m_op_translators : TranslatorDictionaryType
}.

Definition set_op_translator (type : string) (c : CreatorFunction)
    (fe : FrontEnd) : FrontEnd :=
  mkFrontEnd (m_telemetry fe) (m_transformation_extensions fe)
             (m_extensions fe) (m_conversion_extensions fe)
             (<[type := c]> (m_op_translators fe)).

Definition push_conversion_extension (e : ConversionExtensionBase)
    (fe : FrontEnd) : FrontEnd :=
  mkFrontEnd (m_telemetry fe) (m_transformation_extensions fe)
             (m_extensions fe) (m_conversion_extensions fe ++ [e])
             (m_op_translators fe).

(** [FrontEnd::add_extension]. *)
Fixpoint add_extension (extension : Extension) (fe : FrontEnd) : FrontEnd :=
  match extension with
  | mkExtension (Some telemetry) _ _ _ _ =>
      mkFrontEnd (Some telemetry) (m_transformation_extensions fe)
                 (m_extensions fe) (m_conversion_extensions fe)
                 (m_op_translators fe)
  | mkExtension None (Some transformation) _ _ _ =>
      mkFrontEnd (m_telemetry fe)
                 (m_transformation_extensions fe ++ [transformation])
                 (m_extensions fe) (m_conversion_extensions fe)
                 (m_op_translators fe)
  | mkExtension None None (Some so_ext) _ _ =>
      let fe := add_extension so_ext fe in
      mkFrontEnd (m_telemetry fe) (m_transformation_extensions fe)
                 (m_extensions fe ++ [extension]) (m_conversion_extensions fe)
                 (m_op_translators fe)
  | mkExtension None None None (Some common_conv_ext) _ =>
      let fe := push_conversion_extension (inl common_conv_ext) fe in
      match frontend.get_converter common_conv_ext with
      | Some converter =>
          set_op_translator (frontend.get_op_type common_conv_ext)
                            (Indexed converter) fe
      | None =>
          match frontend.get_converter_named_and_indexed common_conv_ext with
          | Some converter =>
              set_op_translator (frontend.get_op_type common_conv_ext)
                                (NamedAndIndexed converter) fe
          | None => fe
          end
      end
  | mkExtension None None None None (Some tensorflow_conv_ext) =>
      let fe := push_conversion_extension (inr tensorflow_conv_ext) fe in
      set_op_translator (tensorflow.get_op_type tensorflow_conv_ext)
                        (tensorflow.get_converter tensorflow_conv_ext) fe
  | mkExtension None None None None None => fe
  end.

(** ** The conversion pipeline *)

(** [Model::get_ordered_ops] sorts, with the model's topological sorter,
    the nodes that the results, sinks and parameters of the model reach.
    That is core library code, outside this file, and is taken as given:
    [ordered_ops_after model g] stands for what [get_ordered_ops] returns
    for a model whose ordered operations were [model] and whose node
    objects, rewired since, are [g].  One law is relied on: a graph nobody
    rewired has the ordered operations it had. *)
Record TopologicalSorter : Type := mkTopologicalSorter {
  ordered_ops_after : Model → NodeVector → Model;
  ordered_ops_unchanged : ∀ model : Model, ordered_ops_after model model = model
}.

Definition lift {A} (r : Result A) : M A := ([], r).

Definition newline : string := String (Ascii.ascii_of_nat 10) EmptyString.

(** One iteration of the loop over [failures] in [convert]. *)
Definition failure_line (failure : string * string) : string :=
  "[TensorFlow Frontend] Internal error: conversion is failed for "
    +:+ failure.1 +:+ " operation with a message:" +:+ newline
    +:+ failure.2 +:+ newline.

Definition unsupported_line (unsupported_operation : string) : string :=
  "[TensorFlow Frontend] Internal error: No translator found for "
    +:+ unsupported_operation +:+ " node.".

Fixpoint concat_strings (l : list string) : string :=
  match l with
  | [] => EmptyString
  | x :: l' => x +:+ concat_strings l'
  end.

(** [translator_map->emplace(name, translator)]: no effect on a taken key. *)
Definition emplace (name : string) (c : CreatorFunction)
    (translator_map : TranslatorDictionaryType) : TranslatorDictionaryType :=
  match translator_map !! name with
  | Some _ => translator_map
  | None => <[name := c]> translator_map
  end.

(** [std::set<std::string>{"Placeholder", "NoOp"}] in iteration order. *)
Definition required_types : list string := ["NoOp"; "Placeholder"].

Section Pipeline.

(** The passes of the normalization pipeline. *)
Variable passes : PassLibrary.

(** The order in which a [std::unordered_map] is iterated is not
    specified: the model takes it as given, over the entries of the map. *)
Variable unordered_map_order : gmap string string → list (string * string).

(** The topological sorter of the models at hand. *)
Variable m_topological_sorter : TopologicalSorter.

(** [FrontEnd::normalize]. *)
Definition normalize (model : Model) : M Model :=
  let manager : Manager :=
    [ mkPass "SavedModelUnusedRemover" (SavedModelUnusedRemover passes);
      mkPass "EmbeddingSegmentSingleFeatureFusion"
             (EmbeddingSegmentSingleFeatureFusion passes);
      mkPass "BlockLSTMReplacer" (BlockLSTMReplacer passes);
      mkPass "GRUBlockCellReplacer" (GRUBlockCellReplacer passes);
      mkPass "ConstToResultRemover" (ConstToResultRemover passes) ] in
  let* model := run_passes manager model in
  let r := get_unsupported_operations_and_failures model empty_report in
  if ((0 <? length (unsupported_operations r)) || (0 <? size (failures r)))%nat
  then ret model
  else
    let manager : Manager :=
      [ mkPass "TransposeSinkingGeneral" (TransposeSinkingGeneral passes);
        mkPass "ReverseShapeAndTypeInfer" (ReverseShapeAndTypeInfer passes) ] in
    run_passes manager model.

(** [FrontEnd::convert(const std::shared_ptr<ov::Model>&)]: the loop runs
    over the ordered operations as they were on entry and rewires the node
    objects; the results' [validate_and_infer_types] leaves the graph
    structure as it is; [normalize] then reads the model again, through
    its [get_ordered_ops]. *)
Definition convert_model (fe : FrontEnd) (partiallyConverted : Model)
    : M Model :=
  let* g :=
    for_each (get_ordered_ops partiallyConverted)
      (fun node g =>
         if is_FrameworkNode node
         then lift (translate_framework_node node (m_op_translators fe) g)
         else ret g)
      (partiallyConverted : NodeVector) in
  normalize (ordered_ops_after m_topological_sorter partiallyConverted g).

(** [FrontEnd::decode]; [m_op_translators.at(name)] throws on a missing
    key. *)
Definition decode (fe : FrontEnd) (model : InputModelPtr) : M Model :=
  let* translator_map :=
    for_each required_types
      (fun name translator_map =>
         match m_op_translators fe !! name with
         | None => raise (StdException "map::at")
         | Some c => ret (emplace name c translator_map)
         end)
      (∅ : TranslatorDictionaryType) in
  lift (get_converted_model model translator_map).

(** [FrontEnd::convert_partially]. *)
Definition convert_partially (fe : FrontEnd) (model : InputModelPtr)
    : M Model :=
  match as_InputModel model with
  | None => raise (GeneralFailure "Invalid input model")
  | Some _ =>
      match m_transformation_extensions fe with
      | _ :: _ =>
          let* function := decode fe model in
          let manager : Manager :=
            concat (map register_pass (m_transformation_extensions fe)) in
          let* function := run_passes manager function in
          let* function := convert_model fe function in
          ret function
      | [] =>
          let translator_map := m_op_translators fe in
          let* f := lift (get_converted_model model translator_map) in
          let* f := normalize f in
          ret f
      end
  end.

Definition exception_message (r : Report) : string :=
  concat_strings (map failure_line (unordered_map_order (failures r)))
    +:+ match unsupported_operations r with
        | first :: _ => unsupported_line first
        | [] => EmptyString
        end.

(** [FrontEnd::convert(const InputModel::Ptr&)]. *)
Definition convert (fe : FrontEnd) (model : InputModelPtr) : M Model :=
  let* f := convert_partially fe model in
  let r := get_unsupported_operations_and_failures f empty_report in
  run match m_telemetry fe with
      | Some _ =>
          for_each (unsupported_operations r)
            (fun unsupported_operation _ =>
               emit (EvSendEvent "error_cause"
                                 ("tf_" +:+ unsupported_operation)))
            tt
      | None => ret tt
      end in
  let is_conversion_successful :=
    ((length (unsupported_operations r) =? 0) && (size (failures r) =? 0))%nat in
  if is_conversion_successful then ret f
  else raise (OpConversionFailure (exception_message r)).

End Pipeline.

(** ** Construction, recognition and loading *)

(** [FrontEnd::FrontEnd()]: the translators are the table
    [tensorflow::op::get_supported_ops()] returns (declared in
    [op_table.hpp]), taken here as the argument. *)
Definition new_FrontEnd (supported_ops : TranslatorDictionaryType) : FrontEnd :=
  mkFrontEnd None [] [] [] supported_ops.

(** An [ov::Any] of [variants], by the type tests the file applies to it. *)
Inductive Any : Type :=
| AnyString (s : string)
| AnyBool (b : bool)
| AnyGraphIterator (nodes : list Decoder)   (* GraphIterator::Ptr *)
| AnyOther.

(** What the file asks of the file system and of [ov::util]: the suffix test
    and the three [is_supported] checks of the graph iterators. *)
Record ModelFiles : Type := mkModelFiles {
  ends_with : string → string → bool;
  GraphIteratorProto_is_supported : string → bool;
  GraphIteratorSavedModel_is_supported : string → bool;
  GraphIteratorProtoTxt_is_supported : string → bool
}.

(** [variants.size() > 0 && variants[variants.size() - 1].is<bool>() ? 1 : 0]. *)
Definition extra_variants_num (variants : list Any) : nat :=
  match last variants with
  | Some (AnyBool _) => 1
  | _ => 0
  end.

(** [FrontEnd::supported_impl], in a build without the wide-string paths of
    [OPENVINO_ENABLE_UNICODE_PATH_SUPPORT]. *)
Definition supported_impl (files : ModelFiles) (variants : list Any) : bool :=
  if negb (length variants =? 1 + extra_variants_num variants)%nat then false
  else
    match variants !! 0 with
    | Some (AnyString model_path) =>
        if ends_with files model_path ".pb"
           && GraphIteratorProto_is_supported files model_path
        then true
        else if GraphIteratorSavedModel_is_supported files model_path then true
        else if GraphIteratorProtoTxt_is_supported files model_path then true
        else false
    | Some (AnyGraphIterator _) => true
    | _ => false
    end.

(** The graph iterator an input model is built on. *)
Inductive GraphIterator : Type :=
| GraphIteratorProto (model_path : string)
| GraphIteratorSavedModel (model_path tags : string)
| GraphIteratorProtoTxt (model_path : string)
| GraphIteratorGiven (nodes : list Decoder).

(** The input model [load_impl] constructs, as the arguments it gives to
    the [InputModel] constructor: the iterator, the telemetry sink, and
    whether the saved model's variables index and input and output names
    go with them.  What the constructors of the iterators and of the input
    model do with a file is outside this file. *)
Record InputModel : Type := mkInputModel {
  im_graph_iterator : GraphIterator;
  im_telemetry : option TelemetryExtension;
  im_saved_model_data : bool
}.

Definition inconsistent_input_model : string :=
  "[TensorFlow Frontend] Internal error or inconsistent input model: the frontend supports only frozen binary protobuf format.".

(** [FrontEnd::load_impl], in the same build: either a general failure of
    its own or the input model it goes on to construct. *)
Definition load_impl (files : ModelFiles) (fe : FrontEnd)
    (variants : list Any) : Result InputModel :=
  if negb (length variants =? 1 + extra_variants_num variants)%nat
  then inl (GeneralFailure inconsistent_input_model)
  else
    match variants !! 0 with
    | Some (AnyString model_path) =>
        if GraphIteratorProto_is_supported files model_path then
          inr (mkInputModel (GraphIteratorProto model_path) (m_telemetry fe)
                            false)
        else if GraphIteratorSavedModel_is_supported files model_path then
          let graph_iterator :=
            match variants !! 1 with
            | Some (AnyString tags) => GraphIteratorSavedModel model_path tags
            | _ => GraphIteratorSavedModel model_path "serve"
            end in
          inr (mkInputModel graph_iterator (m_telemetry fe) true)
        else if GraphIteratorProtoTxt_is_supported files model_path then
          inr (mkInputModel (GraphIteratorProtoTxt model_path) (m_telemetry fe)
                            false)
        else inl (GeneralFailure inconsistent_input_model)
    | Some (AnyGraphIterator graph_iterator) =>
        inr (mkInputModel (GraphIteratorGiven graph_iterator) (m_telemetry fe)
                          false)
    | _ => inl (GeneralFailure inconsistent_input_model)
    end.

(** ** Specification vocabulary *)

(** The collector run on a sequence of placeholders. *)
Definition collect_list (ps : list Placeholder) (r : Report) : Report :=
  fold_left (fun r p => record_framework_node p.1 p.2 r) ps r.

(** The message of the first failed placeholder with tag [t]. *)
Definition first_failure (t : string) (ps : list Placeholder) : option string :=
  head (omap (fun p => if decide (p.1 = t) then failure_message p else None) ps).

(** The tags the collector considers for the unsupported list, in traversal
    order: the tag of every placeholder it does not record as a failure,
    that is of every placeholder without a failure message and of every
    failed one whose tag already has a recorded failure. *)
Fixpoint unsupported_candidates (before ps : list Placeholder) : list string :=
  match ps with
  | [] => []
  | p :: ps' =>
      match failure_message p, first_failure p.1 before with
      | Some _, None => unsupported_candidates (before ++ [p]) ps'
      | _, _ => p.1 :: unsupported_candidates (before ++ [p]) ps'
      end
  end.

(** The tags of the failed placeholders, and of those without a failure
    message, in traversal order. *)
Definition failed_tags (ps : list Placeholder) : list string :=
  map fst (List.filter
             (fun p => bool_decide (is_Some (failure_message p))) ps).

Definition unsupported_tags (ps : list Placeholder) : list string :=
  map fst (List.filter (fun p => bool_decide (failure_message p = None)) ps).

(** Each element once, at the place of its first occurrence. *)
Fixpoint first_occurrences (l : list string) : list string :=
  match l with
  | [] => []
  | x :: l' => x :: filter (fun y => y ≠ x) (first_occurrences l')
  end.

(** Number of framework nodes of a node, nested subgraphs included. *)
Fixpoint framework_node_count (node : Node) : nat :=
  let in_bodies (bodies : list (list Node)) :=
    sum_list (map (fun body => sum_list (map framework_node_count body))
                  bodies) in
  match node with
  | Op _ _ _ _ => 0
  | MultiSubGraphOp _ _ _ _ bodies => in_bodies bodies
  | FrameworkNode _ _ _ _ _ bodies => S (in_bodies bodies)
  end.

Definition framework_nodes (model : Model) : nat :=
  sum_list (map framework_node_count model).

(** [needle] occurs in [hay]. *)
Definition contains (needle hay : string) : Prop :=
  ∃ pre post, hay = pre +:+ needle +:+ post.

(** The source an input has after [translate_framework_node] rewired the
    consumers of [node] to [new_node_outputs]. *)
Definition rewired (node : Node) (new_node_outputs : NamedOutputVector)
    (src : Output) : Output :=
  if decide (src.1 = node_id node
             ∧ src.2 < Nat.min (length new_node_outputs) (get_output_size node))
  then match new_node_outputs !! src.2 with
       | Some new_output => port new_output
       | None => src
       end
  else src.

Definition is_telemetry_event (ev : Event) : bool :=
  match ev with EvSendEvent _ _ => true | EvPass _ => false end.

Definition telemetry_events (t : list Event) : list Event :=
  List.filter is_telemetry_event t.

Definition stage_A_events : list Event :=
  [ EvPass "SavedModelUnusedRemover";
    EvPass "EmbeddingSegmentSingleFeatureFusion";
    EvPass "BlockLSTMReplacer";
    EvPass "GRUBlockCellReplacer";
    EvPass "ConstToResultRemover" ].

Definition stage_B_events : list Event :=
  [ EvPass "TransposeSinkingGeneral"; EvPass "ReverseShapeAndTypeInfer" ].

Definition stage_A (passes : PassLibrary) (model : Model) : Model :=
  ConstToResultRemover passes
    (GRUBlockCellReplacer passes
       (BlockLSTMReplacer passes
          (EmbeddingSegmentSingleFeatureFusion passes
             (SavedModelUnusedRemover passes model)))).

Definition stage_B (passes : PassLibrary) (model : Model) : Model :=
  ReverseShapeAndTypeInfer passes (TransposeSinkingGeneral passes model).

(** The collector finds nothing to report. *)
Definition clean (model : Model) : Prop :=
  let r := get_unsupported_operations_and_failures model empty_report in
  unsupported_operations r = [] ∧ failures r = ∅.

#[global] Instance clean_dec (model : Model) : Decision (clean model).
Proof. unfold clean. apply _. Defined.

(** The graph [normalize] leaves behind. *)
Definition normalized (passes : PassLibrary) (model : Model) : Model :=
  let after_A := stage_A passes model in
  if decide (clean after_A) then stage_B passes after_A else after_A.

(** The telemetry events of [convert] for a report. *)
Definition error_cause_events (r : Report) : list Event :=
  map (fun op => EvSendEvent "error_cause" ("tf_" +:+ op))
      (unsupported_operations r).

(** What [convert_partially] does before it normalizes: the Translation
    Session, or with transformation extensions the boundary-only session,
    the extensions' passes and the re-translation of the framework nodes,
    whose outcome is the model as [get_ordered_ops] gives it afterwards. *)
Definition translation_stage (sorter : TopologicalSorter) (fe : FrontEnd)
    (model : InputModelPtr) : M Model :=
  match as_InputModel model with
  | None => raise (GeneralFailure "Invalid input model")
  | Some _ =>
      match m_transformation_extensions fe with
      | _ :: _ =>
          let* function := decode fe model in
          let* function :=
            run_passes (concat (map register_pass
                                    (m_transformation_extensions fe)))
                       function in
          let* g :=
            for_each (get_ordered_ops function)
              (fun node g =>
                 if is_FrameworkNode node
                 then lift (translate_framework_node node (m_op_translators fe) g)
                 else ret g)
              (function : NodeVector) in
          ret (ordered_ops_after sorter function g)
      | [] => lift (get_converted_model model (m_op_translators fe))
      end
  end.

(** What [convert] does with the graph [convert_partially] returned: the
    collector, the telemetry events, the strict check. *)
Definition strict_check
    (unordered_map_order : gmap string string → list (string * string))
    (fe : FrontEnd) (f : Model) : M Model :=
  let r := get_unsupported_operations_and_failures f empty_report in
  ( match m_telemetry fe with
    | Some _ => error_cause_events r
    | None => []
    end,
    if decide (clean f) then inr f
    else inl (OpConversionFailure (exception_message unordered_map_order r)) ).

(** A computation that sends nothing to the telemetry sink. *)
Definition no_telemetry {A} (c : M A) : Prop :=
  telemetry_events (trace c) = [].

Definition failure_lines
    (unordered_map_order : gmap string string → list (string * string))
    (r : Report) : string :=
  concat_strings (map failure_line (unordered_map_order (failures r))).

(** [rewired] for the output ports [s], [s+1], ... of node [id]: what the
    loop of [translate_framework_node] has left to do from port [s] on. *)
Definition rewired_from (id s len : nat) (new_node_outputs : NamedOutputVector)
    (src : Output) : Output :=
  if decide (src.1 = id
             ∧ s ≤ src.2 < s + Nat.min (length new_node_outputs) len)
  then match new_node_outputs !! (src.2 - s) with
       | Some new_output => port new_output
       | None => src
       end
  else src.

(** The session state after the decoded nodes [visited]. *)
Definition session_after (translator_map : TranslatorDictionaryType)
    (visited : list Decoder) : SessionState :=
  fold_left (fun s d => translate_node translator_map d s) visited
            empty_session.

(** ** Vocabulary of the further properties *)

(** How many times [t] occurs in [l]. *)
Definition times (t : string) (l : list string) : nat :=
  length (List.filter (fun x => bool_decide (x = t)) l).

(** The loop of [FrontEnd::convert(const std::shared_ptr<ov::Model>&)]
    over the operations [nodes], from the node objects [g]: its outcome is
    the node objects alive afterwards, the re-translated framework nodes
    among them, not the ordered operations of the model. *)
Definition retranslate_nodes (fe : FrontEnd) (nodes : list Node)
    (g : NodeVector) : M NodeVector :=
  for_each nodes
    (fun node g =>
       if is_FrameworkNode node
       then lift (translate_framework_node node (m_op_translators fe) g)
       else ret g)
    g.

(** The events of the passes a list of transformation extensions registers. *)
Definition extension_pass_events
    (extensions : list DecoderTransformationExtension) : list Event :=
  map (fun p => EvPass (pass_name p)) (concat (map register_pass extensions)).

(** The model the passes of the transformation extensions leave. *)
Definition after_extension_passes
    (extensions : list DecoderTransformationExtension) (model : Model) : Model :=
  fold_left (fun f p => run_on_model p f)
            (concat (map register_pass extensions)) model.

(** The translator map [decode] hands to its session. *)
Definition boundary_translators (noop placeholder : CreatorFunction)
    : TranslatorDictionaryType :=
  <[ "Placeholder" := placeholder ]> {[ "NoOp" := noop ]}.

(** The front end after a sequence of [add_extension] calls. *)
Definition add_extensions (extensions : list Extension) (fe : FrontEnd)
    : FrontEnd :=
  fold_left (fun fe extension => add_extension extension fe) extensions fe.

(** ** Sample inputs *)

Definition failed_placeholder (id : nat) (type message : string) : Node :=
  FrameworkNode id (mkDecoder type [] [] 1 [])
                {[ failed_conversion_key := message ]} [] 1 [].

Definition unsupported_placeholder (id : nat) (type : string) : Node :=
  FrameworkNode id (mkDecoder type [] [] 1 []) ∅ [] 1 [].

(** Two nodes of one op type whose translator threw on both. *)
Definition two_failures_of_one_tag : Model :=
  [ failed_placeholder 1 "Conv2D" "bad shape";
    failed_placeholder 2 "Conv2D" "bad stride" ].

(** An [If]-like node whose only body holds one untranslated node, between
    two translated nodes. *)
Definition nested_unsupported_model : Model :=
  [ Op 1 "Parameter" [] 1;
    MultiSubGraphOp 2 "If" [(1, 0)] 1
                    [ [ unsupported_placeholder 1 "UnknownOp" ] ];
    Op 3 "Result" [(2, 0)] 0 ].

(** A placeholder owning a body with a placeholder of its own, followed by
    a third placeholder. *)
Definition nested_placeholders_model : Model :=
  [ FrameworkNode 1 (mkDecoder "While" [] [] 1 []) ∅ [] 1
                  [ [ unsupported_placeholder 1 "Body" ] ];
    unsupported_placeholder 2 "After";
    unsupported_placeholder 3 "Body" ].

(** Passes that leave the graph as it is. *)
Definition identity_passes : PassLibrary :=
  mkPassLibrary id id id id id id id.

(** A front end with no translator, no extension and no telemetry. *)
Definition bare_frontend : FrontEnd := mkFrontEnd None [] [] [] ∅.

(** A source graph of one node of an op type nobody translates. *)
Definition unknown_op_graph : list Decoder :=
  [ mkDecoder "UnknownOp" [] [] 1 [] ].

(** The placeholder the session leaves for [unknown_op_graph]. *)
Definition unknown_op_model : Model :=
  [ FrameworkNode 1 (mkDecoder "UnknownOp" [] [] 1 []) ∅ [] 1 [] ].

(** A translator that builds one constant. *)
Definition translate_const : CreatorFunction :=
  Indexed (fun _ fresh => inr ([Op fresh "Constant" [] 1], [(fresh, 0)])).

(** A translator that always throws. *)
Definition translate_relu_throws : CreatorFunction :=
  Indexed (fun _ _ => inl (StdException "bad shape")).

Definition const_frontend : FrontEnd :=
  mkFrontEnd None [] [] [] {[ "Const" := translate_const ]}.

Definition const_graph : list Decoder := [ mkDecoder "Const" [] [] 1 [] ].

(** A front end with telemetry whose only translator throws. *)
Definition throwing_frontend : FrontEnd :=
  mkFrontEnd (Some (mkTelemetry 0)) [] [] []
             {[ "Relu" := translate_relu_throws ]}.

Definition relu_then_unknown_graph : list Decoder :=
  [ mkDecoder "Relu" [] [] 1 []; mkDecoder "UnknownOp" [(0, 0)] [] 1 [] ].

Definition two_relu_graph : list Decoder :=
  [ mkDecoder "Relu" [] [] 1 []; mkDecoder "Relu" [(0, 0)] [] 1 [] ].

(** The placeholders the session leaves for [two_relu_graph] when the
    translator of [Relu] throws. *)
Definition two_failed_relu_model : Model :=
  [ FrameworkNode 1 (mkDecoder "Relu" [] [] 1 [])
                  {[ failed_conversion_key := "bad shape" ]} [] 1 [];
    FrameworkNode 2 (mkDecoder "Relu" [(0, 0)] [] 1 [])
                  {[ failed_conversion_key := "bad shape" ]} [(1, 0)] 1 [] ].

Definition relu_then_unknown_model : Model :=
  [ FrameworkNode 1 (mkDecoder "Relu" [] [] 1 [])
                  {[ failed_conversion_key := "bad shape" ]} [] 1 [];
    FrameworkNode 2 (mkDecoder "UnknownOp" [(0, 0)] [] 1 []) ∅ [(1, 0)] 1 [] ].

(** A parameter feeding a two-output placeholder, each output read by a
    result. *)
Definition relu_decoder : Decoder := mkDecoder "Relu" [(0, 0)] [] 2 [].

Definition retry_graph : Model :=
  [ Op 1 "Parameter" [] 1;
    FrameworkNode 2 relu_decoder ∅ [(1, 0)] 2 [];
    Op 3 "Result" [(2, 0)] 0;
    Op 4 "Result" [(2, 1)] 0 ].

(** A translator that builds one single-output node on its inputs. *)
Definition translate_relu : CreatorFunction :=
  Indexed (fun ctx fresh =>
             inr ([Op fresh "Relu" (ctx_inputs ctx) 1], [(fresh, 0)])).

Definition relu_translators : TranslatorDictionaryType :=
  {[ "Relu" := translate_relu ]}.

(** A front end with one transformation extension that registers no pass,
    and translators for the two boundary op types only. *)
Definition extension_frontend : FrontEnd :=
  mkFrontEnd None [mkTransformation []] [] []
             {[ "NoOp" := Indexed (fun _ _ => inr ([], []));
                "Placeholder" :=
                  Indexed (fun _ fresh =>
                             inr ([Op fresh "Parameter" [] 1], [(fresh, 0)])) ]}.

(** A generic conversion extension that only supplies a named converter. *)
Definition named_only_extension : frontend.ConversionExtension :=
  frontend.mkConversionExtension
    "Relu" None (Some (fun _ _ => inr ([], []))) None.

(** A front end with one transformation extension, which registers one
    pass, and translators for the two boundary op types and for [Relu]. *)
Definition pass_frontend : FrontEnd :=
  mkFrontEnd None [mkTransformation [mkPass "CustomPass" id]] [] []
             (<[ "Relu" := translate_relu ]>
                (m_op_translators extension_frontend)).

(** The same front end with a translator for [Relu] that throws. *)
Definition throwing_pass_frontend : FrontEnd :=
  mkFrontEnd None [mkTransformation [mkPass "CustomPass" id]] [] []
             (<[ "Relu" := translate_relu_throws ]>
                (m_op_translators extension_frontend)).

Definition relu_graph : list Decoder := [ mkDecoder "Relu" [] [] 1 [] ].

(** The placeholder the boundary-only session leaves for [relu_graph]. *)
Definition relu_placeholder : Node :=
  FrameworkNode 1 (mkDecoder "Relu" [] [] 1 []) ∅ [] 1 [].

(** A file system on which [saved_model] is a SavedModel directory and
    [frozen_graph] a binary protobuf without the usual suffix. *)
Definition sample_files : ModelFiles :=
  mkModelFiles (fun _ _ => false)
               (fun path => bool_decide (path = "frozen_graph"))
               (fun path => bool_decide (path = "saved_model"))
               (fun _ => false).

(** Some input of a node of [g] reads an output of [n]. *)
Definition is_read (n : Node) (g : NodeVector) : bool :=
  existsb (fun m => existsb (fun src : Output => (src.1 =? node_id n)%nat)
                            (node_inputs m)) g.

(** No input was redirected and no node built since the ordered operations
    were [model]. *)
Definition same_wiring (model : Model) (g : NodeVector) : bool :=
  bool_decide (map (fun n => (node_id n, node_inputs n)) g
               = map (fun n => (node_id n, node_inputs n)) model).

(** The ordered operations of the sample graphs after a re-translation
    that replaced every output of the framework nodes it re-translated:
    those framework nodes, which no input reads any more, are gone; the
    other nodes, none of which reads a node built after it, are in creation
    order.  A framework node that some input still reads stays. *)
Definition live_ops (model : Model) (g : NodeVector) : Model :=
  if same_wiring model g then model
  else List.filter (fun n => negb (is_FrameworkNode n) || is_read n g) g.

Definition live_ops_unchanged (model : Model) : live_ops model model = model.
Proof. unfold live_ops, same_wiring. by rewrite bool_decide_eq_true_2. Defined.

Definition sample_sorter : TopologicalSorter :=
  mkTopologicalSorter live_ops live_ops_unchanged.



(** What it leaves for [relu_then_unknown_graph]. *)
Definition relu_then_unknown_decoded : Model :=
  [ FrameworkNode 1 (mkDecoder "Relu" [] [] 1 []) ∅ [] 1 [];
    FrameworkNode 2 (mkDecoder "UnknownOp" [(0, 0)] [] 1 []) ∅ [(1, 0)] 1 [] ].

(** ** Induction over nodes and their nested subgraphs *)

Section Node_nested_ind.
Variable P : Node → Prop.
Hypothesis P_Op : ∀ i t ins k, P (Op i t ins k).
Hypothesis P_MultiSubGraphOp : ∀ i t ins k bodies,
  Forall (Forall P) bodies → P (MultiSubGraphOp i t ins k bodies).
Hypothesis P_FrameworkNode : ∀ i d a ins k bodies,
  Forall (Forall P) bodies → P (FrameworkNode i d a ins k bodies).

Fixpoint Node_nested_ind (n : Node) : P n :=
  let in_body := fix in_body (body : list Node) : Forall P body :=
    match body with
    | [] => List.Forall_nil _
    | n :: body' =>
        List.Forall_cons _ n _ (Node_nested_ind n) (in_body body')
    end in
  let in_bodies := fix in_bodies (bodies : list (list Node))
      : Forall (Forall P) bodies :=
    match bodies with
    | [] => List.Forall_nil _
    | body :: bodies' =>
        List.Forall_cons _ body _ (in_body body) (in_bodies bodies')
    end in
  match n with
  | Op i t ins k => P_Op i t ins k
  | MultiSubGraphOp i t ins k bodies =>
      P_MultiSubGraphOp i t ins k bodies (in_bodies bodies)
  | FrameworkNode i d a ins k bodies =>
      P_FrameworkNode i d a ins k bodies (in_bodies bodies)
  end.
End Node_nested_ind.

(** * Theorems *)

(** ** The collector is a fold over the traversal *)

Lemma collect_list_app ps qs r :
  collect_list (ps ++ qs) r = collect_list qs (collect_list ps r).
Proof. unfold collect_list. apply fold_left_app. Qed.

Lemma collect_body_flat (body : list Node) :
  Forall (fun n => ∀ r, collect_node n r
                        = collect_list (placeholders_of_node n) r) body →
  ∀ r, fold_left (fun r n => collect_node n r) body r
       = collect_list (concat (map placeholders_of_node body)) r.
Proof.
  induction 1 as [|n body Hn _ IH]; intros r; simpl; [done|].
  rewrite collect_list_app, <- Hn. apply IH.
Qed.

Lemma collect_bodies_flat (bodies : list (list Node)) :
  Forall (Forall (fun n => ∀ r, collect_node n r
                               = collect_list (placeholders_of_node n) r))
         bodies →
  ∀ r, fold_left (fun r body => fold_left (fun r n => collect_node n r) body r)
                 bodies r
       = collect_list
           (concat (map (fun body => concat (map placeholders_of_node body))
                        bodies)) r.
Proof.
  induction 1 as [|body bodies Hb _ IH]; intros r; simpl; [done|].
  rewrite collect_list_app, <- (collect_body_flat body Hb). apply IH.
Qed.

Lemma collect_node_flat (n : Node) :
  ∀ r, collect_node n r = collect_list (placeholders_of_node n) r.
Proof.
  induction n as [i t ins k|i t ins k bodies IH|i d a ins k bodies IH]
    using Node_nested_ind; intros r; simpl.
  - done.
  - apply (collect_bodies_flat bodies IH).
  - apply (collect_bodies_flat bodies IH).
Qed.

Lemma collector_flat (model : Model) (r : Report) :
  get_unsupported_operations_and_failures model r
  = collect_list (placeholders model) r.
Proof.
  unfold get_unsupported_operations_and_failures, get_ordered_ops, placeholders.
  apply collect_body_flat, Forall_forall. intros n _. apply collect_node_flat.
Qed.

(** ** What the collector records *)

Lemma first_failure_cons t p ps :
  first_failure t (p :: ps)
  = match (if decide (p.1 = t) then failure_message p else None) with
    | Some m => Some m
    | None => first_failure t ps
    end.
Proof.
  unfold first_failure. simpl.
  destruct (if decide (p.1 = t) then failure_message p else None); done.
Qed.

Lemma first_failure_snoc t ps p :
  first_failure t (ps ++ [p])
  = match first_failure t ps with
    | Some m => Some m
    | None => if decide (p.1 = t) then failure_message p else None
    end.
Proof.
  induction ps as [|q ps IH].
  - rewrite app_nil_l, first_failure_cons.
    destruct (if decide (p.1 = t) then failure_message p else None); done.
  - rewrite <- app_comm_cons, !first_failure_cons, IH.
    destruct (if decide (q.1 = t) then failure_message q else None); done.
Qed.

(** First failure wins: the failure map after the collector ran over [ps]. *)
Lemma failures_collect_list ps : ∀ r t,
  failures (collect_list ps r) !! t
  = match failures r !! t with
    | Some m => Some m
    | None => first_failure t ps
    end.
Proof.
  induction ps as [|p ps IH]; intros r t.
  - simpl. destruct (failures r !! t); done.
  - change (collect_list (p :: ps) r)
      with (collect_list ps (record_framework_node p.1 p.2 r)).
    rewrite IH, first_failure_cons. unfold record_framework_node, failure_message.
    destruct (p.2 !! failed_conversion_key) as [m|] eqn:Hm;
      destruct (failures r !! p.1) as [m'|] eqn:Hf; simpl.
    + destruct (decide (p.1 ∈ unsupported_operations r)); simpl;
        destruct (decide (p.1 = t)) as [<-|]; rewrite ?Hf; try done;
        destruct (failures r !! t); done.
    + destruct (decide (p.1 = t)) as [<-|Hne].
      * rewrite lookup_insert_eq, Hf. done.
      * rewrite lookup_insert_ne by done. destruct (failures r !! t); done.
    + destruct (decide (p.1 ∈ unsupported_operations r)); simpl;
        destruct (decide (p.1 = t)); destruct (failures r !! t); done.
    + destruct (decide (p.1 ∈ unsupported_operations r)); simpl;
        destruct (decide (p.1 = t)); destruct (failures r !! t); done.
Qed.

Lemma elem_of_first_occurrences (x : string) l :
  x ∈ first_occurrences l ↔ x ∈ l.
Proof.
  induction l as [|y l IH]; simpl; [done|].
  rewrite !elem_of_cons, list_elem_of_filter, IH.
  destruct (decide (x = y)); tauto.
Qed.

Lemma NoDup_first_occurrences l : NoDup (first_occurrences l).
Proof.
  induction l as [|y l IH]; simpl; [constructor|].
  constructor.
  - rewrite list_elem_of_filter. tauto.
  - by apply NoDup_filter.
Qed.

Lemma filter_first_occurrences_cons (acc : list string) x l :
  filter (fun y => y ∉ acc) (first_occurrences (x :: l))
  = if decide (x ∈ acc) then filter (fun y => y ∉ acc) (first_occurrences l)
    else x :: filter (fun y => y ∉ acc ++ [x]) (first_occurrences l).
Proof.
  simpl. destruct (decide (x ∈ acc)) as [Hin|Hnin].
  - rewrite filter_cons_False by tauto.
    rewrite list_filter_filter. apply list_filter_iff. intros y.
    split; [tauto|]. intros Hy. split; [done|]. intros ->. done.
  - rewrite filter_cons_True by done. f_equal.
    rewrite list_filter_filter. apply list_filter_iff. intros y.
    rewrite elem_of_app, list_elem_of_singleton. tauto.
Qed.

(** The unsupported list after the collector ran over [ps], when the failure
    map it started from is the one of the placeholders seen [before]. *)
Lemma unsupported_collect_list ps : ∀ before r,
  (∀ t, failures r !! t = first_failure t before) →
  unsupported_operations (collect_list ps r)
  = unsupported_operations r
    ++ filter (fun y => y ∉ unsupported_operations r)
              (first_occurrences (unsupported_candidates before ps)).
Proof.
  induction ps as [|p ps IH]; intros before r Hinv.
  - simpl. by rewrite app_nil_r.
  - change (collect_list (p :: ps) r)
      with (collect_list ps (record_framework_node p.1 p.2 r)).
    assert (Hstep : ∀ r', failures r' = failures r →
              (failure_message p = None ∨ is_Some (first_failure p.1 before)) →
              ∀ t, failures r' !! t = first_failure t (before ++ [p])).
    { intros r' -> Hcase t. rewrite first_failure_snoc, <- Hinv.
      destruct (failures r !! t) eqn:Hf; [done|].
      destruct (decide (p.1 = t)) as [<-|]; [|done].
      destruct Hcase as [->|[m Hm]]; [done|].
      rewrite <- Hinv, Hf in Hm. done. }
    unfold record_framework_node. simpl unsupported_candidates.
    fold (failure_message p). rewrite Hinv.
    destruct (failure_message p) as [m|] eqn:Hm;
      destruct (first_failure p.1 before) as [m'|] eqn:Hf.
    + destruct (decide (p.1 ∈ unsupported_operations r)) as [Hin|Hnin].
      * rewrite (IH (before ++ [p])) by (apply Hstep; eauto).
        rewrite filter_first_occurrences_cons, decide_True by done. done.
      * rewrite (IH (before ++ [p])) by (apply Hstep; eauto).
        cbn [unsupported_operations].
        rewrite filter_first_occurrences_cons, decide_False by done.
        by rewrite <- app_assoc.
    + rewrite (IH (before ++ [p])); [done|]. simpl. intros t.
      rewrite first_failure_snoc, <- Hinv.
      destruct (decide (p.1 = t)) as [<-|Hne].
      * rewrite lookup_insert_eq, Hinv, Hf, Hm. done.
      * rewrite lookup_insert_ne by done. destruct (failures r !! t); done.
    + destruct (decide (p.1 ∈ unsupported_operations r)) as [Hin|Hnin].
      * rewrite (IH (before ++ [p])) by (apply Hstep; eauto).
        rewrite filter_first_occurrences_cons, decide_True by done. done.
      * rewrite (IH (before ++ [p])) by (apply Hstep; eauto).
        cbn [unsupported_operations].
        rewrite filter_first_occurrences_cons, decide_False by done.
        by rewrite <- app_assoc.
    + destruct (decide (p.1 ∈ unsupported_operations r)) as [Hin|Hnin].
      * rewrite (IH (before ++ [p])) by (apply Hstep; eauto).
        rewrite filter_first_occurrences_cons, decide_True by done. done.
      * rewrite (IH (before ++ [p])) by (apply Hstep; eauto).
        cbn [unsupported_operations].
        rewrite filter_first_occurrences_cons, decide_False by done.
        by rewrite <- app_assoc.
Qed.

Lemma filter_not_in_nil (l : list string) :
  filter (fun y => y ∉ @nil string) l = l.
Proof.
  induction l as [|x l IH]; [done|].
  rewrite filter_cons_True by apply not_elem_of_nil. by rewrite IH.
Qed.

Lemma unsupported_collect_list_empty ps :
  unsupported_operations (collect_list ps empty_report)
  = first_occurrences (unsupported_candidates [] ps).
Proof.
  rewrite (unsupported_collect_list ps []); simpl.
  - apply filter_not_in_nil.
  - intros t. by rewrite lookup_empty.
Qed.

Lemma unsupported_candidates_without_message ps : ∀ before p,
  p ∈ ps → failure_message p = None → p.1 ∈ unsupported_candidates before ps.
Proof.
  induction ps as [|q ps IH]; intros before p Hin Hnone.
  - by apply elem_of_nil in Hin.
  - apply elem_of_cons in Hin as [<-|Hin]; simpl.
    + rewrite Hnone. apply elem_of_cons. by left.
    + destruct (failure_message q), (first_failure q.1 before);
        rewrite ?elem_of_cons; auto.
Qed.

Lemma first_failure_None t ps :
  first_failure t ps = None ↔ t ∉ failed_tags ps.
Proof.
  unfold failed_tags. induction ps as [|p ps IH]; simpl.
  - split; [intros _; apply not_elem_of_nil|done].
  - rewrite first_failure_cons. unfold failure_message in *.
    destruct (p.2 !! failed_conversion_key) as [m|] eqn:Hm; simpl.
    + rewrite not_elem_of_cons.
      destruct (decide (p.1 = t)) as [<-|Hne]; [split; [done|tauto]|].
      rewrite IH. split; [intros ?; split; [congruence|done]|tauto].
    + destruct (decide (p.1 = t)); apply IH.
Qed.

Lemma unsupported_candidates_single_failures ps : ∀ before,
  NoDup (failed_tags ps) →
  (∀ t, t ∈ failed_tags ps → first_failure t before = None) →
  unsupported_candidates before ps = unsupported_tags ps.
Proof.
  unfold failed_tags, unsupported_tags.
  induction ps as [|p ps IH]; intros before Hnd Hfresh; [done|].
  simpl in *. unfold failure_message in *.
  destruct (p.2 !! failed_conversion_key) as [m|] eqn:Hm; simpl in *.
  - apply NoDup_cons in Hnd as [Hp Hnd].
    rewrite (Hfresh p.1) by (apply elem_of_cons; by left).
    apply IH; [done|]. intros t Ht. rewrite first_failure_snoc.
    rewrite (Hfresh t) by (apply elem_of_cons; by right).
    rewrite decide_False; [done|]. intros <-. done.
  - f_equal. apply IH; [done|]. intros t Ht. rewrite first_failure_snoc.
    rewrite (Hfresh t) by done. unfold failure_message. rewrite Hm.
    by destruct (decide (p.1 = t)).
Qed.

Lemma NoDup_unsupported_collector (model : Model) :
  NoDup (unsupported_operations
           (get_unsupported_operations_and_failures model empty_report)).
Proof.
  rewrite collector_flat, unsupported_collect_list_empty.
  apply NoDup_first_occurrences.
Qed.

(** A graph the collector reports nothing about has no framework node. *)
Lemma clean_no_placeholders (model : Model) :
  clean model → placeholders model = [].
Proof.
  unfold clean. rewrite collector_flat. intros [Hu Hf].
  destruct (placeholders model) as [|p ps] eqn:Hps; [done|exfalso].
  destruct (failure_message p) as [m|] eqn:Hm.
  - assert (failures (collect_list (p :: ps) empty_report) !! p.1 = Some m)
      as Hlook.
    { rewrite failures_collect_list, first_failure_cons. simpl.
      rewrite lookup_empty, decide_True by done. by rewrite Hm. }
    rewrite Hf, lookup_empty in Hlook. done.
  - assert (p.1 ∈ unsupported_operations (collect_list (p :: ps) empty_report))
      as Hin.
    { rewrite unsupported_collect_list_empty, elem_of_first_occurrences.
      apply unsupported_candidates_without_message; [|done].
      apply elem_of_cons. by left. }
    rewrite Hu in Hin. by apply elem_of_nil in Hin.
Qed.

Lemma framework_count_body (body : list Node) :
  Forall (fun n => framework_node_count n = length (placeholders_of_node n))
         body →
  sum_list (map framework_node_count body)
  = length (concat (map placeholders_of_node body)).
Proof.
  induction 1 as [|n body Hn _ IH]; simpl; [done|].
  rewrite length_app. congruence.
Qed.

Lemma framework_count_bodies (bodies : list (list Node)) :
  Forall (Forall (fun n => framework_node_count n
                           = length (placeholders_of_node n))) bodies →
  sum_list (map (fun body => sum_list (map framework_node_count body)) bodies)
  = length (concat (map (fun body => concat (map placeholders_of_node body))
                        bodies)).
Proof.
  induction 1 as [|body bodies Hb _ IH]; simpl; [done|].
  rewrite length_app, <- (framework_count_body body Hb). congruence.
Qed.

Lemma framework_node_count_flat (n : Node) :
  framework_node_count n = length (placeholders_of_node n).
Proof.
  induction n as [i t ins k|i t ins k bodies IH|i d a ins k bodies IH]
    using Node_nested_ind; simpl.
  - done.
  - apply (framework_count_bodies bodies IH).
  - f_equal. apply (framework_count_bodies bodies IH).
Qed.

Lemma framework_nodes_flat (model : Model) :
  framework_nodes model = length (placeholders model).
Proof.
  apply framework_count_body, Forall_forall. intros n _.
  apply framework_node_count_flat.
Qed.

Lemma clean_iff_no_framework_nodes (model : Model) :
  clean model ↔ framework_nodes model = 0.
Proof.
  rewrite framework_nodes_flat. split.
  - intros Hc. by rewrite (clean_no_placeholders model Hc).
  - intros Hlen. apply nil_length_inv in Hlen.
    unfold clean. rewrite collector_flat, Hlen. done.
Qed.

Lemma failed_tags_are_tags ps t : t ∈ failed_tags ps → t ∈ map fst ps.
Proof.
  unfold failed_tags. rewrite !list_elem_of_In, !in_map_iff.
  intros (p & Hp & Hin). apply filter_In in Hin as [Hin _]. eauto.
Qed.

Lemma unsupported_tags_are_tags ps t : t ∈ unsupported_tags ps → t ∈ map fst ps.
Proof.
  unfold unsupported_tags. rewrite !list_elem_of_In, !in_map_iff.
  intros (p & Hp & Hin). apply filter_In in Hin as [Hin _]. eauto.
Qed.

Lemma NoDup_failed_tags ps : NoDup (map fst ps) → NoDup (failed_tags ps).
Proof.
  unfold failed_tags. induction ps as [|p ps IH]; simpl; [done|].
  intros [Hp Hnd]%NoDup_cons.
  destruct (bool_decide (is_Some (failure_message p))); simpl; [|by apply IH].
  apply NoDup_cons. split; [|by apply IH].
  intros Hin. apply Hp. by apply failed_tags_are_tags.
Qed.

Lemma failed_not_unsupported_on_distinct_tags ps t :
  NoDup (map fst ps) → t ∈ failed_tags ps → t ∉ unsupported_tags ps.
Proof.
  induction ps as [|p ps IH]; simpl.
  - intros _ Hin. by apply elem_of_nil in Hin.
  - intros [Hp Hnd]%NoDup_cons. unfold failed_tags, unsupported_tags. simpl.
    unfold failure_message.
    destruct (p.2 !! failed_conversion_key) as [m|]; simpl.
    + intros Hin Hun. apply elem_of_cons in Hin as [->|Hin].
      * apply Hp. by apply unsupported_tags_are_tags.
      * by apply (IH Hnd Hin).
    + intros Hin Hun. apply elem_of_cons in Hun as [->|Hun].
      * apply Hp. by apply failed_tags_are_tags.
      * by apply (IH Hnd Hin).
Qed.

(** The two collections are disjoint on a graph whose placeholders carry
    pairwise distinct tags. *)
Lemma collector_disjoint_on_distinct_tags (model : Model) :
  NoDup (map fst (placeholders model)) →
  let r := get_unsupported_operations_and_failures model empty_report in
  ∀ t, t ∈ unsupported_operations r → failures r !! t = None.
Proof.
  intros Hnd r t Hin. unfold r in *. rewrite collector_flat in *.
  rewrite failures_collect_list. simpl. rewrite lookup_empty.
  rewrite unsupported_collect_list_empty, elem_of_first_occurrences in Hin.
  rewrite (unsupported_candidates_single_failures _ [])
    in Hin by (by try apply NoDup_failed_tags).
  apply first_failure_None. intros Hfailed.
  by apply (failed_not_unsupported_on_distinct_tags _ t Hnd Hfailed).
Qed.

(** ** Worked examples of the collector *)

(** A tag met only inside a nested subgraph reaches the report. *)
Example collector_enters_nested_subgraphs :
  get_unsupported_operations_and_failures nested_unsupported_model empty_report
  = mkReport ["UnknownOp"] ∅.
Proof. reflexivity. Qed.

(** The body of a node is visited before the node's successors, and a tag
    met again is not listed again. *)
Example collector_visits_bodies_first :
  unsupported_operations
    (get_unsupported_operations_and_failures nested_placeholders_model
                                             empty_report)
  = ["While"; "Body"; "After"].
Proof. reflexivity. Qed.

(** A failed node and an untranslated node of different op types. *)
Example collector_separates_failures :
  get_unsupported_operations_and_failures relu_then_unknown_model empty_report
  = mkReport ["UnknownOp"] {[ "Relu" := "bad shape" ]}.
Proof. reflexivity. Qed.

(** ** Claims about the collector *)

(** C1 (the code departs from the claim).  The claim: the unsupported list
    and the failure map never share a tag.  On a graph with two failed
    placeholders of one tag the second one falls through to the branch
    commented "found new unsupported operation": the tag is bound in the
    failure map and listed as unsupported. *)
Theorem repeated_failure_listed_as_unsupported :
  let r := get_unsupported_operations_and_failures
             two_failures_of_one_tag empty_report in
  unsupported_operations r = ["Conv2D"]
  ∧ failures r !! "Conv2D" = Some "bad shape"
  ∧ "Conv2D" ∈ unsupported_operations r.
Proof.
  split; [reflexivity|]. split; [reflexivity|].
  apply elem_of_cons. by left.
Qed.

(** C8.  For every graph, with [ps] its placeholders in the order of the
    traversal that enters a node's nested subgraphs right after the node:
    the failure map binds a tag exactly to the message of the first failed
    placeholder carrying it; the unsupported list has no duplicate; it is
    in first-seen order, holding each tag the collector does not record as
    a failure at the place of its first such occurrence; it holds the tag
    of every placeholder that has no failure message; and when no tag
    fails twice it is exactly the first-seen list of those tags. *)
Theorem collector_first_seen (model : Model) :
  let r := get_unsupported_operations_and_failures model empty_report in
  let ps := placeholders model in
  (∀ t, failures r !! t = first_failure t ps)
  ∧ NoDup (unsupported_operations r)
  ∧ unsupported_operations r = first_occurrences (unsupported_candidates [] ps)
  ∧ unsupported_tags ps ⊆ unsupported_operations r
  ∧ (NoDup (failed_tags ps) →
     unsupported_operations r = first_occurrences (unsupported_tags ps)).
Proof.
  cbv zeta. split; [|split; [|split; [|split]]].
  - intros t. rewrite collector_flat, failures_collect_list.
    simpl. by rewrite lookup_empty.
  - apply NoDup_unsupported_collector.
  - rewrite collector_flat. apply unsupported_collect_list_empty.
  - intros t Ht. apply list_elem_of_In, in_map_iff in Ht as [p [<- Hp]].
    apply filter_In in Hp as [Hp Hnone]. apply bool_decide_eq_true in Hnone.
    rewrite collector_flat, unsupported_collect_list_empty,
      elem_of_first_occurrences.
    apply unsupported_candidates_without_message; [|done].
    by apply list_elem_of_In.
  - intros Hnd. rewrite collector_flat, unsupported_collect_list_empty.
    by rewrite (unsupported_candidates_single_failures _ []).
Qed.

Lemma collector_first_seen_witness :
  NoDup (failed_tags (placeholders relu_then_unknown_model))
  ∧ unsupported_operations
      (get_unsupported_operations_and_failures relu_then_unknown_model
                                               empty_report)
    = first_occurrences
        (unsupported_tags (placeholders relu_then_unknown_model)).
Proof.
  assert (NoDup (failed_tags (placeholders relu_then_unknown_model))) as Hnd.
  { apply NoDup_cons. split; [apply not_elem_of_nil|apply NoDup_nil_2]. }
  split; [done|].
  by apply (collector_first_seen relu_then_unknown_model).
Defined.

(** ** Laws of the effect monad *)

Lemma bind_ret_l {A B} (a : A) (k : A → M B) : bind (ret a) k = k a.
Proof. unfold bind, ret. by destruct (k a). Qed.

Lemma bind_ret_r {A} (c : M A) : bind c ret = c.
Proof. destruct c as [t [e|a]]; simpl; [done|]. by rewrite app_nil_r. Qed.

Lemma bind_assoc {A B C} (c : M A) (k : A → M B) (h : B → M C) :
  bind (bind c k) h = bind c (fun a => bind (k a) h).
Proof.
  destruct c as [t [e|a]]; simpl; [done|].
  destruct (k a) as [t' [e|b]]; simpl; [done|].
  destruct (h b) as [t'' r]. by rewrite app_assoc.
Qed.

Lemma bind_ext {A B} (c : M A) (k k' : A → M B) :
  (∀ a, k a = k' a) → bind c k = bind c k'.
Proof. intros H. destruct c as [t [e|a]]; simpl; [done|]. by rewrite H. Qed.

Lemma bind_value {A B} (t : list Event) (a : A) (k : A → M B) :
  bind (t, inr a) k = (t ++ trace (k a), outcome (k a)).
Proof. unfold bind, trace, outcome. by destruct (k a). Qed.

Lemma outcome_bind_raise {A B} (c : M A) (k : A → M B) (e : Exn) :
  outcome c = inl e → outcome (bind c k) = inl e.
Proof.
  unfold outcome. destruct c as [t [e'|a]]; simpl; intros H; congruence.
Qed.

Lemma for_each_emit (ev : string → Event) (l : list string) :
  for_each l (fun op _ => emit (ev op)) tt = (map ev l, inr tt).
Proof.
  induction l as [|op l IH]; simpl; [done|]. by rewrite IH.
Qed.

(** ** The guards of [normalize] and [convert] *)

Lemma report_guard (r : Report) :
  ((0 <? length (unsupported_operations r)) || (0 <? size (failures r)))%nat
  = negb ((length (unsupported_operations r) =? 0)
          && (size (failures r) =? 0))%nat.
Proof.
  destruct (length (unsupported_operations r)), (size (failures r)); done.
Qed.

Lemma successful_iff_clean (model : Model) :
  let r := get_unsupported_operations_and_failures model empty_report in
  ((length (unsupported_operations r) =? 0) && (size (failures r) =? 0))%nat
  = bool_decide (clean model).
Proof.
  cbv zeta. destruct (decide (clean model)) as [Hc|Hc].
  - rewrite bool_decide_eq_true_2 by done. destruct Hc as [-> ->].
    by rewrite map_size_empty.
  - rewrite bool_decide_eq_false_2 by done.
    apply not_true_is_false. intros Hb. apply Hc.
    apply andb_true_iff in Hb as [Hu Hf].
    apply Nat.eqb_eq in Hu, Hf. split.
    + by apply nil_length_inv.
    + by apply map_size_empty_iff.
Qed.

(** ** The pipeline, stage by stage *)

Lemma normalize_eq (passes : PassLibrary) (model : Model) :
  normalize passes model
  = (stage_A_events
       ++ (if decide (clean (stage_A passes model)) then stage_B_events
           else []),
     inr (normalized passes model)).
Proof.
  unfold normalize, normalized. cbn [run_passes bind map fold_left
    pass_name run_on_model].
  fold (stage_A passes model). rewrite report_guard, successful_iff_clean.
  destruct (decide (clean (stage_A passes model))) as [Hc|Hc].
  - rewrite bool_decide_eq_true_2 by done. reflexivity.
  - rewrite bool_decide_eq_false_2 by done. reflexivity.
Qed.

Lemma convert_partially_eq (passes : PassLibrary)
    (sorter : TopologicalSorter) (fe : FrontEnd) (model : InputModelPtr) :
  convert_partially passes sorter fe model
  = bind (translation_stage sorter fe model) (normalize passes).
Proof.
  unfold convert_partially, translation_stage, convert_model.
  destruct (as_InputModel model); [|done].
  destruct (m_transformation_extensions fe).
  - apply bind_ext. intros f. apply bind_ret_r.
  - rewrite bind_assoc. apply bind_ext. intros f.
    rewrite bind_assoc. apply bind_ext. intros g.
    rewrite bind_ret_r, bind_assoc. apply bind_ext. intros h.
    by rewrite bind_ret_l.
Qed.

Lemma convert_eq (passes : PassLibrary)
    (order : gmap string string → list (string * string))
    (sorter : TopologicalSorter) (fe : FrontEnd) (model : InputModelPtr) :
  convert passes order sorter fe model
  = bind (convert_partially passes sorter fe model) (strict_check order fe).
Proof.
  unfold convert, strict_check.
  destruct (convert_partially passes sorter fe model)
    as [t [e|f]]; simpl; [done|].
  rewrite successful_iff_clean.
  destruct (m_telemetry fe); simpl.
  - rewrite for_each_emit. unfold error_cause_events.
    destruct (decide (clean f)).
    + rewrite bool_decide_eq_true_2 by done. simpl. by rewrite app_nil_r.
    + rewrite bool_decide_eq_false_2 by done. simpl. by rewrite app_nil_r.
  - destruct (decide (clean f)).
    + rewrite bool_decide_eq_true_2 by done. done.
    + rewrite bool_decide_eq_false_2 by done. done.
Qed.

(** ** Occurrences in strings *)

Lemma string_app_cons (x : Ascii.ascii) (s t : string) :
  String x s +:+ t = String x (s +:+ t).
Proof. reflexivity. Qed.

Lemma string_app_nil_r (s : string) : s +:+ EmptyString = s.
Proof.
  induction s as [|x s IH]; [done|]. by rewrite string_app_cons, IH.
Qed.

Lemma string_app_assoc (a b c : string) : (a +:+ b) +:+ c = a +:+ (b +:+ c).
Proof.
  induction a as [|x a IH]; [done|]. by rewrite !string_app_cons, IH.
Qed.

Lemma contains_refl (s : string) : contains s s.
Proof. exists EmptyString, EmptyString. by rewrite string_app_nil_r. Qed.

Lemma contains_app_l (s a b : string) : contains s a → contains s (a +:+ b).
Proof.
  intros (pre & post & ->). exists pre, (post +:+ b).
  by rewrite !string_app_assoc.
Qed.

Lemma contains_app_r (s a b : string) : contains s b → contains s (a +:+ b).
Proof.
  intros (pre & post & ->). exists (a +:+ pre), post.
  by rewrite !string_app_assoc.
Qed.

Lemma contains_trans (a b c : string) :
  contains a b → contains b c → contains a c.
Proof.
  intros (p1 & q1 & ->) (p2 & q2 & ->). exists (p2 +:+ p1), (q1 +:+ q2).
  by rewrite !string_app_assoc.
Qed.

Lemma contains_concat_strings (x : string) (l : list string) :
  x ∈ l → contains x (concat_strings l).
Proof.
  induction l as [|y l IH]; intros Hin.
  - by apply elem_of_nil in Hin.
  - apply elem_of_cons in Hin as [->|Hin]; simpl.
    + apply contains_app_l, contains_refl.
    + by apply contains_app_r, IH.
Qed.

Lemma failure_line_contains (tag m : string) :
  contains tag (failure_line (tag, m)) ∧ contains m (failure_line (tag, m)).
Proof.
  unfold failure_line. simpl. split.
  - apply contains_app_r, contains_app_l, contains_refl.
  - do 4 apply contains_app_r. apply contains_app_l, contains_refl.
Qed.

Lemma unsupported_line_contains (tag : string) :
  contains tag (unsupported_line tag).
Proof.
  unfold unsupported_line. apply contains_app_r, contains_app_l, contains_refl.
Qed.

(** ** Telemetry is only sent by the strict check *)

Lemma telemetry_events_app (t t' : list Event) :
  telemetry_events (t ++ t') = telemetry_events t ++ telemetry_events t'.
Proof. apply List.filter_app. Qed.

Lemma no_telemetry_bind {A B} (c : M A) (k : A → M B) :
  no_telemetry c → (∀ a, no_telemetry (k a)) → no_telemetry (bind c k).
Proof.
  unfold no_telemetry, trace. intros Hc Hk.
  destruct c as [t [e|a]]; simpl in *; [done|].
  specialize (Hk a). destruct (k a) as [t' r]. simpl in *.
  by rewrite telemetry_events_app, Hc, Hk.
Qed.

Lemma no_telemetry_lift {A} (r : Result A) : no_telemetry (lift r).
Proof. done. Qed.

Lemma no_telemetry_run_passes (manager : Manager) (model : Model) :
  no_telemetry (run_passes manager model).
Proof.
  unfold no_telemetry, run_passes, trace. simpl.
  induction manager as [|p manager IH]; [done|]. simpl. apply IH.
Qed.

Lemma no_telemetry_for_each {A S} (xs : list A) (body : A → S → M S) :
  (∀ x s, no_telemetry (body x s)) → ∀ s, no_telemetry (for_each xs body s).
Proof.
  intros Hbody. induction xs as [|x xs IH]; intros s; simpl; [done|].
  apply no_telemetry_bind; [apply Hbody|apply IH].
Qed.

Lemma no_telemetry_normalize (passes : PassLibrary) (model : Model) :
  no_telemetry (normalize passes model).
Proof.
  rewrite normalize_eq. unfold no_telemetry, trace. simpl.
  destruct (decide (clean (stage_A passes model))); done.
Qed.

Lemma no_telemetry_translation_stage (sorter : TopologicalSorter)
    (fe : FrontEnd) (model : InputModelPtr) :
  no_telemetry (translation_stage sorter fe model).
Proof.
  unfold translation_stage. destruct (as_InputModel model); [|done].
  destruct (m_transformation_extensions fe); [apply no_telemetry_lift|].
  apply no_telemetry_bind.
  - unfold decode. apply no_telemetry_bind; [|intros; apply no_telemetry_lift].
    apply no_telemetry_for_each. intros name tm.
    destruct (m_op_translators fe !! name); done.
  - intros f. apply no_telemetry_bind; [apply no_telemetry_run_passes|].
    intros g. apply no_telemetry_bind; [|done].
    apply no_telemetry_for_each. intros node h.
    destruct (is_FrameworkNode node); [apply no_telemetry_lift|done].
Qed.

Lemma no_telemetry_convert_partially (passes : PassLibrary)
    (sorter : TopologicalSorter) (fe : FrontEnd)
    (model : InputModelPtr) :
  no_telemetry (convert_partially passes sorter fe model).
Proof.
  rewrite convert_partially_eq. apply no_telemetry_bind.
  - apply no_telemetry_translation_stage.
  - apply no_telemetry_normalize.
Qed.

Lemma telemetry_events_error_cause (r : Report) :
  telemetry_events (error_cause_events r) = error_cause_events r.
Proof.
  unfold error_cause_events, telemetry_events.
  induction (unsupported_operations r) as [|op l IH]; [done|].
  simpl. by rewrite IH.
Qed.

(** ** Claims about the pipeline *)

(** C6.  [normalize] always runs the five Stage A passes, in order, and
    then runs the two Stage B passes exactly when the collector, run on the
    graph Stage A left, reports no unsupported operation and no failure;
    otherwise no Stage B pass runs and the graph is the one Stage A left.
    The collector reports nothing exactly when that graph has no framework
    node at any depth of nested subgraphs. *)
Theorem normalize_stage_B_iff_clean (passes : PassLibrary) (model : Model) :
  let after_A := stage_A passes model in
  normalize passes model
  = (stage_A_events ++ (if decide (clean after_A) then stage_B_events else []),
     inr (if decide (clean after_A) then stage_B passes after_A else after_A))
  ∧ stage_A_events ⊆ trace (normalize passes model)
  ∧ ((∃ ev, ev ∈ stage_B_events ∧ ev ∈ trace (normalize passes model))
     ↔ clean after_A)
  ∧ (stage_B_events ⊆ trace (normalize passes model) ↔ clean after_A)
  ∧ (clean after_A ↔ framework_nodes after_A = 0).
Proof.
  cbv zeta. rewrite normalize_eq. unfold trace. cbn [fst].
  assert (Hdisjoint : ∀ ev, ev ∈ stage_B_events → ev ∈ stage_A_events → False).
  { intros ev HB HA. unfold stage_A_events, stage_B_events in *.
    repeat (apply elem_of_cons in HB as [->|HB]);
      [| |by apply elem_of_nil in HB];
      repeat (apply elem_of_cons in HA as [HA|HA]; [discriminate HA|]);
      by apply elem_of_nil in HA. }
  split; [done|]. split.
  { intros ev Hev. apply elem_of_app. by left. }
  apply and_assoc. split; [|apply clean_iff_no_framework_nodes].
  destruct (decide (clean (stage_A passes model))) as [Hc|Hc].
  - split; (split; [done|intros _]).
    + exists (EvPass "TransposeSinkingGeneral"). split.
      * apply elem_of_cons. by left.
      * apply elem_of_app. right. apply elem_of_cons. by left.
    + intros ev Hev. apply elem_of_app. by right.
  - rewrite app_nil_r. split; (split; [|done]).
    + intros (ev & HB & HA). destruct (Hdisjoint ev HB HA).
    + intros Hsub. exfalso. apply (Hdisjoint (EvPass "TransposeSinkingGeneral")).
      * apply elem_of_cons. by left.
      * apply Hsub. apply elem_of_cons. by left.
Qed.

(** C3 (as the code has it).  In strict conversion the stages run in this
    order: the translation stage (the Translation Session, or with
    transformation extensions the boundary-only session, their passes and
    the re-translation), then normalization (Stage A, the collector, Stage
    B when that collector reports nothing), and only then the collector
    and the strict check of [convert], on the normalized graph.
    Normalization runs whether or not the check is going to pass. *)
Theorem strict_conversion_stage_order (passes : PassLibrary)
    (order : gmap string string → list (string * string))
    (sorter : TopologicalSorter) (fe : FrontEnd) (model : InputModelPtr) :
  convert passes order sorter fe model
  = bind (translation_stage sorter fe model)
         (fun g => bind (normalize passes g) (strict_check order fe))
  ∧ ∀ t0 g, translation_stage sorter fe model = (t0, inr g) →
      convert passes order sorter fe model
      = (t0 ++ stage_A_events
            ++ (if decide (clean (stage_A passes g)) then stage_B_events
                else [])
            ++ trace (strict_check order fe (normalized passes g)),
         outcome (strict_check order fe (normalized passes g))).
Proof.
  rewrite convert_eq, convert_partially_eq, bind_assoc. split; [done|].
  intros t0 g ->. rewrite bind_value, normalize_eq, bind_value.
  unfold trace, outcome. cbn [fst snd]. by rewrite <- !app_assoc.
Qed.

(** C3, counterexample to the order as claimed.  With no translator for
    [UnknownOp] the strict check fails, and the Stage A passes have run all
    the same: normalization did not wait for the check to pass. *)
Lemma normalization_runs_before_failed_check :
  outcome (convert identity_passes map_to_list sample_sorter bare_frontend
                   (InputModelTF unknown_op_graph))
  = inl (OpConversionFailure
           "[TensorFlow Frontend] Internal error: No translator found for UnknownOp node.")
  ∧ trace (convert identity_passes map_to_list sample_sorter bare_frontend
                   (InputModelTF unknown_op_graph))
    = stage_A_events.
Proof. split; vm_compute; reflexivity. Qed.

Lemma strict_conversion_stage_order_witness :
  translation_stage sample_sorter bare_frontend (InputModelTF unknown_op_graph)
  = ([], inr unknown_op_model)
  ∧ convert identity_passes map_to_list sample_sorter bare_frontend
            (InputModelTF unknown_op_graph)
    = ([] ++ stage_A_events
          ++ (if decide (clean (stage_A identity_passes unknown_op_model))
              then stage_B_events else [])
          ++ trace (strict_check map_to_list bare_frontend
                      (normalized identity_passes unknown_op_model)),
       outcome (strict_check map_to_list bare_frontend
                  (normalized identity_passes unknown_op_model))).
Proof.
  split; [reflexivity|].
  apply (proj2 (strict_conversion_stage_order identity_passes map_to_list
                                              sample_sorter
                  bare_frontend (InputModelTF unknown_op_graph))).
  reflexivity.
Defined.

(** C4.  Once [convert_partially] has returned a graph, [convert] raises
    if and only if the collector's unsupported list or failure map over
    that graph is non-empty, and otherwise returns the graph.  The message
    raised holds, for every entry of the failure map, the line made of its
    tag and stored message; it ends with the sentence naming the first
    unsupported tag when there is one, and has no such sentence when the
    unsupported list is empty. *)
Theorem convert_raises_iff_reported (passes : PassLibrary)
    (order : gmap string string → list (string * string))
    (sorter : TopologicalSorter) (fe : FrontEnd) (model : InputModelPtr)
    (t : list Event) (f : Model) :
  (∀ m, order m ≡ₚ map_to_list m) →
  convert_partially passes sorter fe model = (t, inr f) →
  let r := get_unsupported_operations_and_failures f empty_report in
  let result := outcome (convert passes order sorter fe model) in
  let message := exception_message order r in
  ((∃ e, result = inl e) ↔ unsupported_operations r ≠ [] ∨ failures r ≠ ∅)
  ∧ result = (if decide (unsupported_operations r = [] ∧ failures r = ∅)
              then inr f else inl (OpConversionFailure message))
  ∧ (∀ tag m, failures r !! tag = Some m →
       contains (failure_line (tag, m)) message
       ∧ contains tag message ∧ contains m message)
  ∧ message = failure_lines order r
              +:+ match unsupported_operations r with
                  | first :: _ => unsupported_line first
                  | [] => EmptyString
                  end
  ∧ (∀ first rest, unsupported_operations r = first :: rest →
       contains first (unsupported_line first)).
Proof.
  intros Hperm Hpart r result message.
  assert (Hresult : result
            = if decide (unsupported_operations r = [] ∧ failures r = ∅)
              then inr f else inl (OpConversionFailure message)).
  { unfold result. rewrite convert_eq, Hpart, bind_value.
    unfold outcome, strict_check. cbn [snd]. unfold clean. fold r.
    destruct (decide (unsupported_operations r = [] ∧ failures r = ∅)); done. }
  split; [|split; [done|split; [|split]]].
  - rewrite Hresult.
    destruct (decide (unsupported_operations r = [] ∧ failures r = ∅))
      as [[Hu Hf]|Hn].
    + split; [intros [e He]; discriminate He|]. intros [H|H]; contradiction.
    + split; [intros _|eauto].
      destruct (decide (unsupported_operations r = [])) as [Hu|Hu]; [|by left].
      right. intros Hf. apply Hn. done.
  - intros tag m Hlook.
    assert (Hline : contains (failure_line (tag, m)) message).
    { unfold message, exception_message. apply contains_app_l.
      apply contains_concat_strings, list_elem_of_fmap.
      exists (tag, m). split; [done|].
      rewrite Hperm. by apply elem_of_map_to_list. }
    destruct (failure_line_contains tag m) as [Htag Hm].
    split; [done|]. split; eapply contains_trans; eauto.
  - done.
  - intros first rest _. apply unsupported_line_contains.
Qed.

Lemma convert_raises_iff_reported_witness :
  (∀ m : gmap string string, map_to_list m ≡ₚ map_to_list m)
  ∧ convert_partially identity_passes sample_sorter throwing_frontend
                      (InputModelTF relu_then_unknown_graph)
    = (stage_A_events, inr relu_then_unknown_model)
  ∧ outcome (convert identity_passes map_to_list sample_sorter throwing_frontend
                     (InputModelTF relu_then_unknown_graph))
    = inl (OpConversionFailure
             (exception_message map_to_list
                (get_unsupported_operations_and_failures
                   relu_then_unknown_model empty_report))).
Proof.
  split; [done|]. split; [vm_compute; reflexivity|].
  pose proof (convert_raises_iff_reported identity_passes map_to_list
                                          sample_sorter
                throwing_frontend (InputModelTF relu_then_unknown_graph)
                stage_A_events relu_then_unknown_model
                (fun m => reflexivity (map_to_list m))
                ltac:(vm_compute; reflexivity)) as (_ & Hresult & _).
  rewrite Hresult. rewrite decide_False; [done|].
  intros [Hu _]. vm_compute in Hu. discriminate Hu.
Defined.

(** C5.  Whenever [convert] returns a graph, that graph has no framework
    node, at any depth of nested subgraphs. *)
Theorem convert_returns_real_graph (passes : PassLibrary)
    (order : gmap string string → list (string * string))
    (sorter : TopologicalSorter) (fe : FrontEnd) (model : InputModelPtr)
    (t : list Event) (f : Model) :
  convert passes order sorter fe model = (t, inr f) → framework_nodes f = 0.
Proof.
  rewrite convert_eq.
  destruct (convert_partially passes sorter fe model) as [t0 [e|g]]; [done|].
  rewrite bind_value. unfold outcome, strict_check. cbn [snd].
  destruct (decide (clean g)) as [Hc|Hc]; [|done].
  intros [= _ <-]. rewrite framework_nodes_flat.
  by rewrite (clean_no_placeholders g Hc).
Qed.

Lemma convert_returns_real_graph_witness :
  convert identity_passes map_to_list
          sample_sorter const_frontend (InputModelTF const_graph)
  = (stage_A_events ++ stage_B_events, inr [Op 1 "Constant" [] 1])
  ∧ framework_nodes [Op 1 "Constant" [] 1] = 0.
Proof.
  split; [vm_compute; reflexivity|].
  apply (convert_returns_real_graph identity_passes map_to_list
                                    sample_sorter const_frontend
           (InputModelTF const_graph) (stage_A_events ++ stage_B_events)).
  vm_compute. reflexivity.
Defined.

Lemma error_cause_event_inj (a b : string) :
  EvSendEvent "error_cause" ("tf_" +:+ a) = EvSendEvent "error_cause" ("tf_" +:+ b)
  → a = b.
Proof. intros H. by injection H. Qed.

(** X20.  With a telemetry sink configured, once [convert_partially] has
    returned a graph, the telemetry events of [convert] are one
    [error_cause] event per entry of the collector's unsupported list, in
    list order and without repetition: a tag gets an event exactly when it
    is in the unsupported list, whether or not it is also a key of the
    failure map. *)
Theorem telemetry_once_per_unsupported_tag (passes : PassLibrary)
    (order : gmap string string → list (string * string))
    (sorter : TopologicalSorter) (fe : FrontEnd) (model : InputModelPtr)
    (tel : TelemetryExtension)
    (t : list Event) (f : Model) :
  m_telemetry fe = Some tel →
  convert_partially passes sorter fe model = (t, inr f) →
  let r := get_unsupported_operations_and_failures f empty_report in
  let sent := telemetry_events (trace (convert passes order sorter fe model)) in
  sent = map (fun op => EvSendEvent "error_cause" ("tf_" +:+ op))
             (unsupported_operations r)
  ∧ NoDup sent
  ∧ length sent = length (unsupported_operations r)
  ∧ ∀ tag, EvSendEvent "error_cause" ("tf_" +:+ tag) ∈ sent
           ↔ tag ∈ unsupported_operations r.
Proof.
  intros Htel Hpart r sent.
  assert (Hsent : sent = error_cause_events r).
  { unfold sent. rewrite convert_eq, Hpart, bind_value.
    pose proof (no_telemetry_convert_partially passes sorter fe model)
      as Hquiet.
    rewrite Hpart in Hquiet. unfold no_telemetry, trace in Hquiet.
    unfold trace, strict_check. cbn [fst] in *. rewrite Htel.
    by rewrite telemetry_events_app, Hquiet, telemetry_events_error_cause. }
  rewrite Hsent. unfold error_cause_events.
  assert (Hinj : Inj (=) (=)
            (fun op => EvSendEvent "error_cause" ("tf_" +:+ op))).
  { intros a b. apply error_cause_event_inj. }
  split; [done|]. split; [|split].
  - apply (NoDup_fmap_2 _). apply NoDup_unsupported_collector.
  - apply length_map.
  - intros tag.
    apply (list_elem_of_fmap_inj
             (fun op => EvSendEvent "error_cause" ("tf_" +:+ op))).
Qed.

Lemma telemetry_once_per_unsupported_tag_witness :
  m_telemetry throwing_frontend = Some (mkTelemetry 0)
  ∧ convert_partially identity_passes sample_sorter throwing_frontend
                      (InputModelTF relu_then_unknown_graph)
    = (stage_A_events, inr relu_then_unknown_model)
  ∧ telemetry_events
      (trace (convert identity_passes map_to_list
                      sample_sorter throwing_frontend
                      (InputModelTF relu_then_unknown_graph)))
    = map (fun op => EvSendEvent "error_cause" ("tf_" +:+ op))
          (unsupported_operations
             (get_unsupported_operations_and_failures
                relu_then_unknown_model empty_report)).
Proof.
  split; [reflexivity|]. split; [vm_compute; reflexivity|].
  apply (telemetry_once_per_unsupported_tag identity_passes map_to_list
                                            sample_sorter
           throwing_frontend (InputModelTF relu_then_unknown_graph)
           (mkTelemetry 0) stage_A_events relu_then_unknown_model).
  - reflexivity.
  - vm_compute. reflexivity.
Defined.

(** C9 (the code departs from the claim).  The claim: in strict conversion
    one telemetry event is sent per distinct unsupported op type, and none
    for translation failures.  With a telemetry sink configured and a
    registered translator for [Relu] that throws on both [Relu] nodes of
    the source graph, both placeholders [convert_partially] returns are
    failed ones and none is of an op type without translator; [convert]
    still sends the event [error_cause], [tf_Relu].  The second failed node
    went into the unsupported list (the defect of C1), and the events
    follow that list. *)
Theorem telemetry_event_for_repeated_failure :
  let fe := throwing_frontend in
  let model := InputModelTF two_relu_graph in
  m_telemetry fe = Some (mkTelemetry 0)
  ∧ m_op_translators fe !! "Relu" = Some translate_relu_throws
  ∧ convert_partially identity_passes sample_sorter fe model
    = (stage_A_events, inr two_failed_relu_model)
  ∧ failed_tags (placeholders two_failed_relu_model) = ["Relu"; "Relu"]
  ∧ unsupported_tags (placeholders two_failed_relu_model) = []
  ∧ telemetry_events
      (trace (convert identity_passes map_to_list sample_sorter fe model))
    = [EvSendEvent "error_cause" "tf_Relu"].
Proof. cbv zeta. repeat split; vm_compute; reflexivity. Qed.

(** ** Worked examples of strict conversion *)

(** One failed node and one node without translator: a line for the
    failure, then the sentence naming the first unsupported op type. *)
Example strict_message_of_failure_and_gap :
  outcome (convert identity_passes map_to_list sample_sorter throwing_frontend
                   (InputModelTF relu_then_unknown_graph))
  = inl (OpConversionFailure
           ("[TensorFlow Frontend] Internal error: conversion is failed for Relu operation with a message:"
              +:+ newline +:+ "bad shape" +:+ newline
              +:+ "[TensorFlow Frontend] Internal error: No translator found for UnknownOp node.")).
Proof. vm_compute. reflexivity. Qed.

(** Two nodes of an op type whose registered translator throws: the message
    also says that no translator was found for that op type. *)
Example strict_message_of_repeated_failure :
  m_op_translators throwing_frontend !! "Relu" = Some translate_relu_throws
  ∧ outcome (convert identity_passes map_to_list sample_sorter throwing_frontend
                     (InputModelTF two_relu_graph))
    = inl (OpConversionFailure
             ("[TensorFlow Frontend] Internal error: conversion is failed for Relu operation with a message:"
                +:+ newline +:+ "bad shape" +:+ newline
                +:+ "[TensorFlow Frontend] Internal error: No translator found for Relu node.")).
Proof. split; vm_compute; reflexivity. Qed.

(** ** Re-translation of a framework node *)

Lemma map_inputs_ext (f h : Output → Output) (n : Node) :
  (∀ src, f src = h src) → map_inputs f n = map_inputs h n.
Proof.
  intros Hext. destruct n; simpl; f_equal; apply map_ext; auto.
Qed.

Lemma map_inputs_compose (f h : Output → Output) (n : Node) :
  map_inputs f (map_inputs h n) = map_inputs (fun src => f (h src)) n.
Proof. destruct n; simpl; f_equal; apply map_map. Qed.

Lemma map_inputs_id (f : Output → Output) (n : Node) :
  (∀ src, f src = src) → map_inputs f n = n.
Proof.
  intros Hid. destruct n; simpl; f_equal;
    (rewrite <- (map_id inputs) at 2; apply map_ext; auto).
Qed.

Lemma replace_outputs_rewired_from (id : nat) :
  ∀ (news : NamedOutputVector) (s len : nat) (g : NodeVector),
    Forall (fun o => (port o).1 ≠ id) news →
    replace_outputs news (map (fun i => (id, i)) (seq s len)) g
    = map (map_inputs (rewired_from id s len news)) g.
Proof.
  induction news as [|o news IH]; intros s len g Hnews.
  - simpl. symmetry. rewrite <- (map_id g) at 2. apply map_ext. intros n.
    apply map_inputs_id. intros src. unfold rewired_from.
    destruct (decide _) as [[_ Hr]|]; [simpl in Hr; lia|done].
  - destruct len as [|len].
    + simpl. symmetry. rewrite <- (map_id g) at 2. apply map_ext. intros n.
      apply map_inputs_id. intros src. unfold rewired_from.
      destruct (decide _) as [[_ Hr]|]; [|done].
      rewrite Nat.min_0_r in Hr. lia.
    + apply Forall_cons in Hnews as [Ho Hnews].
      cbn [seq map replace_outputs]. rewrite IH by done.
      unfold replace. rewrite map_map. apply map_ext. intros n.
      rewrite map_inputs_compose. apply map_inputs_ext. intros [a b].
      unfold rewired_from. cbn [length fst snd].
      destruct (decide ((a, b) = (id, s))) as [[= -> ->]|Hne].
      * rewrite !(decide_True (P := (id, s) = (id, s))) by done.
        rewrite (decide_False (P := (port o).1 = id ∧ _))
          by (intros [? _]; done).
        rewrite decide_True by (split; [done|lia]).
        by rewrite Nat.sub_diag.
      * rewrite !(decide_False (P := (a, b) = (id, s))) by done.
        cbn [fst snd].
        destruct (decide (a = id ∧ S s ≤ b < S s + Nat.min (length news) len))
          as [[-> Hr]|Hn].
        -- rewrite decide_True by (split; [done|lia]).
           replace (b - s) with (S (b - S s)) by lia. done.
        -- rewrite decide_False; [done|]. intros [-> Hr]. apply Hn.
           split; [done|]. assert (b ≠ s) by congruence. lia.
Qed.

Lemma rewired_from_zero (node : Node) (news : NamedOutputVector) (src : Output) :
  rewired_from (node_id node) 0 (get_output_size node) news src
  = rewired node news src.
Proof.
  unfold rewired_from, rewired. rewrite Nat.sub_0_r.
  destruct (decide _) as [[? ?]|Hn1], (decide _) as [[? ?]|Hn2];
    try done; exfalso; [apply Hn2|apply Hn1]; (split; [done|lia]).
Qed.

(** C7.  The re-translation of a framework node raises at once when no
    translator is registered for its op type.  Otherwise, the translator
    having returned its outputs, every input whose source is the
    placeholder's output port [j], for [j] below the smaller of the two
    output counts, gets the translator's [j]-th output as its source; every
    other input, those reading a placeholder port beyond that bound
    included, keeps its source, and the call returns whatever the two
    counts are.  (A translator cannot name the ports of the node being
    replaced: it only sees the decoder and the inputs.) *)
Theorem translate_framework_node_rewires (i : nat) (d : Decoder)
    (a : gmap string string) (ins : OutputVector) (k : nat)
    (bodies : list (list Node)) (op_translators : TranslatorDictionaryType)
    (g : NodeVector) :
  let node := FrameworkNode i d a ins k bodies in
  (op_translators !! get_op_type d = None →
     translate_framework_node node op_translators g
     = inl (OpConversionFailure
              ("No translator found for " +:+ get_op_type d +:+ " node.")))
  ∧ (∀ translator built new_node_outputs,
       op_translators !! get_op_type d = Some translator →
       call_creator translator (mkNodeContext d (input_values g node))
                    (fresh_id g) = inr (built, new_node_outputs) →
       Forall (fun o => (port o).1 ≠ i) new_node_outputs →
       translate_framework_node node op_translators g
       = inr (map (map_inputs (rewired node new_node_outputs)) (g ++ built))
       ∧ (∀ j o, j < Nat.min (length new_node_outputs) k →
                 new_node_outputs !! j = Some o →
                 rewired node new_node_outputs (i, j) = port o)
       ∧ (∀ src : Output,
            src.1 ≠ i ∨ (Nat.min (length new_node_outputs) k ≤ src.2)%nat →
                 rewired node new_node_outputs src = src)).
Proof.
  cbv zeta. split.
  - intros Hnone. unfold translate_framework_node. by rewrite Hnone.
  - intros translator built news Hsome Hcall Hports.
    split; [|split].
    + unfold translate_framework_node. rewrite Hsome, Hcall.
      unfold outputs. cbn [node_id get_output_size].
      rewrite (replace_outputs_rewired_from i) by done. f_equal.
      apply map_ext. intros n. apply map_inputs_ext. intros src.
      apply (rewired_from_zero (FrameworkNode i d a ins k bodies)).
    + intros j o Hj Ho. unfold rewired. cbn [node_id get_output_size fst snd].
      rewrite decide_True by done. by rewrite Ho.
    + intros src Hsrc. unfold rewired. cbn [node_id get_output_size].
      rewrite decide_False; [done|]. intros [? ?]. destruct Hsrc; [done|lia].
Qed.

Lemma translate_framework_node_rewires_witness :
  (translate_framework_node (FrameworkNode 2 relu_decoder ∅ [(1, 0)] 2 [])
                            ∅ retry_graph
   = inl (OpConversionFailure "No translator found for Relu node."))
  ∧ translate_framework_node (FrameworkNode 2 relu_decoder ∅ [(1, 0)] 2 [])
                             relu_translators retry_graph
    = inr [ Op 1 "Parameter" [] 1;
            FrameworkNode 2 relu_decoder ∅ [(1, 0)] 2 [];
            Op 3 "Result" [(5, 0)] 0;
            Op 4 "Result" [(2, 1)] 0;
            Op 5 "Relu" [(1, 0)] 1 ].
Proof.
  split.
  - apply (proj1 (translate_framework_node_rewires 2 relu_decoder ∅ [(1, 0)] 2
                    [] ∅ retry_graph)).
    reflexivity.
  - assert (relu_translators !! get_op_type relu_decoder = Some translate_relu)
      as Hsome by (vm_compute; reflexivity).
    assert (call_creator translate_relu
              (mkNodeContext relu_decoder
                 (input_values retry_graph
                    (FrameworkNode 2 relu_decoder ∅ [(1, 0)] 2 [])))
              (fresh_id retry_graph)
            = inr ([Op 5 "Relu" [(1, 0)] 1], [mkNamedOutput EmptyString (5, 0)]))
      as Hcall by reflexivity.
    assert (Forall (fun o => (port o).1 ≠ 2) [mkNamedOutput EmptyString (5, 0)])
      as Hports by (repeat constructor; simpl; lia).
    destruct (proj2 (translate_framework_node_rewires 2 relu_decoder ∅
                       [(1, 0)] 2 [] relu_translators retry_graph)
                _ _ _ Hsome Hcall Hports) as [Heq _].
    rewrite Heq. vm_compute. reflexivity.
Defined.

(** ** The translation session keeps what it built *)

Lemma translate_node_extends (reg : TranslatorDictionaryType) (d : Decoder)
    (st : SessionState) :
  ∃ extra, ss_model (translate_node reg d st) = ss_model st ++ extra.
Proof.
  destruct d as [op_type inputs attributes arity nested]. simpl.
  destruct (reg !! op_type) as [translator|]; [|eauto].
  destruct (call_creator _ _ _) as [e|[built outs]]; eauto.
Qed.

Lemma session_keeps_nodes (reg : TranslatorDictionaryType) (n : Node)
    (post : list Decoder) :
  ∀ st, n ∈ ss_model st →
        n ∈ ss_model (fold_left (fun s d => translate_node reg d s) post st).
Proof.
  induction post as [|d post IH]; intros st Hin; simpl; [done|].
  apply IH. destruct (translate_node_extends reg d st) as [extra ->].
  apply elem_of_app. by left.
Qed.

Lemma translate_node_unsupported (reg : TranslatorDictionaryType)
    (d : Decoder) (st : SessionState) :
  reg !! get_op_type d = None →
  ∃ id bodies,
    FrameworkNode id d ∅ (map (resolve (ss_outputs st)) (decoder_inputs d))
                  (output_arity d) bodies
    ∈ ss_model (translate_node reg d st).
Proof.
  destruct d as [op_type inputs attributes arity nested]. simpl.
  intros ->. eexists _, _. simpl. apply elem_of_app. right.
  apply list_elem_of_singleton. reflexivity.
Qed.

Lemma translate_node_failed (reg : TranslatorDictionaryType)
    (d : Decoder) (st : SessionState) (translator : CreatorFunction) (e : Exn) :
  reg !! get_op_type d = Some translator →
  call_creator translator
    (mkNodeContext d (map (resolve (ss_outputs st)) (decoder_inputs d)))
    (fresh_id (ss_model st)) = inl e →
  ∃ id bodies,
    FrameworkNode id d {[ failed_conversion_key := what e ]}
                  (map (resolve (ss_outputs st)) (decoder_inputs d))
                  (output_arity d) bodies
    ∈ ss_model (translate_node reg d st).
Proof.
  destruct d as [op_type inputs attributes arity nested]. simpl.
  intros -> ->. eexists _, _. simpl. apply elem_of_app. right.
  apply list_elem_of_singleton. reflexivity.
Qed.

Lemma translate_graph_split (reg : TranslatorDictionaryType)
    (pre : list Decoder) (d : Decoder) (post : list Decoder) :
  translate_graph reg (pre ++ d :: post)
  = ss_model (fold_left (fun s d => translate_node reg d s) post
                (translate_node reg d (session_after reg pre))).
Proof.
  unfold translate_graph, session_after. by rewrite fold_left_app.
Qed.

(** ** The re-translation branch of partial conversion *)

(** With a transformation extension registered, the first framework node
    left after the extensions' passes that has no registered translator
    makes [convert_partially] raise. *)
Lemma convert_partially_retry_raises (passes : PassLibrary)
    (sorter : TopologicalSorter) (fe : FrontEnd)
    (nodes : list Decoder) (t : list Event) (decoded : Model)
    (pre post : list Node) (i : nat) (d : Decoder) (a : gmap string string)
    (ins : OutputVector) (k : nat) (bodies : list (list Node)) :
  m_transformation_extensions fe ≠ [] →
  decode fe (InputModelTF nodes) = (t, inr decoded) →
  get_ordered_ops
    (fold_left (fun f p => run_on_model p f)
               (concat (map register_pass (m_transformation_extensions fe)))
               decoded)
  = pre ++ FrameworkNode i d a ins k bodies :: post →
  Forall (fun n => is_FrameworkNode n = false) pre →
  m_op_translators fe !! get_op_type d = None →
  outcome (convert_partially passes sorter fe (InputModelTF nodes))
  = inl (OpConversionFailure (no_translator_message (get_op_type d))).
Proof.
  intros Hext Hdecode Hops Hpre Hnone.
  set (body := fun (node : Node) (g : NodeVector) =>
                 if is_FrameworkNode node
                 then lift (translate_framework_node node (m_op_translators fe) g)
                 else ret g).
  assert (Hloop : ∀ g, for_each (pre ++ FrameworkNode i d a ins k bodies :: post)
                         body g
                       = ([], inl (OpConversionFailure
                                     (no_translator_message (get_op_type d))))).
  { clear Hops. induction Hpre as [|n pre Hn _ IH]; intros g; simpl.
    - unfold body at 1. simpl. by rewrite Hnone.
    - unfold body at 1. rewrite Hn, bind_ret_l. apply IH. }
  rewrite convert_partially_eq. apply outcome_bind_raise.
  unfold translation_stage. cbn [as_InputModel].
  destruct (m_transformation_extensions fe) as [|e es] eqn:He; [done|].
  rewrite Hdecode, bind_value. unfold outcome at 1. cbn [snd].
  unfold run_passes. rewrite bind_value. unfold outcome at 1. cbn [snd].
  fold body. rewrite Hops, Hloop. reflexivity.
Qed.

(** ** Claims about partial conversion and the extension registry *)

(** C2, counterexample.  With a transformation extension registered,
    [convert_partially] raises because a node has no registered translator:
    the boundary-only session leaves a placeholder for [UnknownOp] and the
    re-translation finds no translator for it. *)
Lemma convert_partially_raises_without_translator :
  m_op_translators extension_frontend !! "UnknownOp" = None
  ∧ convert_partially identity_passes sample_sorter extension_frontend
                      (InputModelTF unknown_op_graph)
    = ([], inl (OpConversionFailure "No translator found for UnknownOp node.")).
Proof. split; vm_compute; reflexivity. Qed.

(** C2 (as the code has it).  When no transformation extension is
    registered, [convert_partially] returns an IR graph for every source
    graph and every translator dictionary: the graph of the Translation
    Session, normalized.  In the session's graph every decoded node without
    a registered translator, and every decoded node whose translator
    raised, is a placeholder carrying its decoder (and, for the latter, the
    error text). *)
Theorem convert_partially_total_without_extensions (passes : PassLibrary)
    (sorter : TopologicalSorter) (fe : FrontEnd) (nodes : list Decoder) :
  m_transformation_extensions fe = [] →
  let session := translate_graph (m_op_translators fe) nodes in
  convert_partially passes sorter fe (InputModelTF nodes)
  = (stage_A_events
       ++ (if decide (clean (stage_A passes session)) then stage_B_events
           else []),
     inr (normalized passes session))
  ∧ ∀ pre d post, nodes = pre ++ d :: post →
      let st := session_after (m_op_translators fe) pre in
      let ov_inputs := map (resolve (ss_outputs st)) (decoder_inputs d) in
      (m_op_translators fe !! get_op_type d = None →
         ∃ id bodies,
           FrameworkNode id d ∅ ov_inputs (output_arity d) bodies ∈ session)
      ∧ (∀ translator e,
           m_op_translators fe !! get_op_type d = Some translator →
           call_creator translator (mkNodeContext d ov_inputs)
                        (fresh_id (ss_model st)) = inl e →
           ∃ id bodies,
             FrameworkNode id d {[ failed_conversion_key := what e ]}
                           ov_inputs (output_arity d) bodies ∈ session).
Proof.
  intros Hext. cbv zeta. split.
  - rewrite convert_partially_eq. unfold translation_stage.
    cbn [as_InputModel]. rewrite Hext. unfold get_converted_model.
    cbn [as_InputModel]. unfold lift. rewrite bind_value, normalize_eq.
    unfold trace, outcome. cbn [fst snd]. by rewrite app_nil_l.
  - intros pre d post ->. rewrite translate_graph_split. split.
    + intros Hnone.
      destruct (translate_node_unsupported _ d
                  (session_after (m_op_translators fe) pre) Hnone)
        as (id & bodies & Hin).
      exists id, bodies. by apply session_keeps_nodes.
    + intros translator e Hsome Hcall.
      destruct (translate_node_failed _ d
                  (session_after (m_op_translators fe) pre) translator e
                  Hsome Hcall) as (id & bodies & Hin).
      exists id, bodies. by apply session_keeps_nodes.
Qed.

Lemma convert_partially_total_without_extensions_witness :
  m_transformation_extensions throwing_frontend = []
  ∧ convert_partially identity_passes sample_sorter throwing_frontend
                      (InputModelTF relu_then_unknown_graph)
    = (stage_A_events, inr relu_then_unknown_model).
Proof.
  split; [reflexivity|].
  rewrite (proj1 (convert_partially_total_without_extensions identity_passes
                                                             sample_sorter
                    throwing_frontend relu_then_unknown_graph eq_refl)).
  vm_compute. reflexivity.
Defined.

(** C10.  [add_extension] has no failing path.  An extension with none of
    the five capabilities leaves the front end as it was; a generic
    conversion extension with neither an indexed nor a named-and-indexed
    converter is recorded among the conversion extensions and leaves the
    translator dictionary, the telemetry sink and the transformation
    extensions as they were. *)
Theorem add_extension_ignores_unhandled (fe : FrontEnd)
    (common_conv_ext : frontend.ConversionExtension)
    (other : option tensorflow.ConversionExtension) :
  frontend.get_converter common_conv_ext = None →
  frontend.get_converter_named_and_indexed common_conv_ext = None →
  add_extension (mkExtension None None None None None) fe = fe
  ∧ m_op_translators
      (add_extension (mkExtension None None None (Some common_conv_ext) other)
                     fe)
    = m_op_translators fe
  ∧ add_extension (mkExtension None None None (Some common_conv_ext) other) fe
    = mkFrontEnd (m_telemetry fe) (m_transformation_extensions fe)
                 (m_extensions fe)
                 (m_conversion_extensions fe ++ [inl common_conv_ext])
                 (m_op_translators fe).
Proof.
  intros Hindexed Hnamed. simpl. rewrite Hindexed, Hnamed. done.
Qed.

Lemma add_extension_ignores_unhandled_witness :
  frontend.get_converter named_only_extension = None
  ∧ frontend.get_converter_named_and_indexed named_only_extension = None
  ∧ m_op_translators
      (add_extension (mkExtension None None None (Some named_only_extension)
                                  None) const_frontend)
    = m_op_translators const_frontend.
Proof.
  split; [reflexivity|]. split; [reflexivity|].
  apply (add_extension_ignores_unhandled const_frontend named_only_extension
           None); reflexivity.
Defined.

(** * Further properties of the code *)

(** ** The collector's two collections *)

Lemma record_framework_node_accumulates (op : string)
    (attrs : gmap string string) (r : Report) :
  unsupported_operations r
    `prefix_of` unsupported_operations (record_framework_node op attrs r)
  ∧ failures r ⊆ failures (record_framework_node op attrs r).
Proof.
  assert (Helse : unsupported_operations r
                    `prefix_of` unsupported_operations
                      (if decide (op ∈ unsupported_operations r) then r
                       else mkReport (unsupported_operations r ++ [op])
                                     (failures r))
                  ∧ failures r
                    ⊆ failures
                        (if decide (op ∈ unsupported_operations r) then r
                         else mkReport (unsupported_operations r ++ [op])
                                       (failures r))).
  { destruct (decide (op ∈ unsupported_operations r)); simpl.
    - split; reflexivity.
    - split; [by apply prefix_app_r|reflexivity]. }
  unfold record_framework_node.
  destruct (attrs !! failed_conversion_key) as [m|],
    (failures r !! op) as [m'|] eqn:Hf; try exact Helse.
  simpl. split; [reflexivity|]. by apply insert_subseteq.
Qed.

Lemma collect_list_accumulates (ps : list Placeholder) : ∀ r,
  unsupported_operations r `prefix_of` unsupported_operations (collect_list ps r)
  ∧ failures r ⊆ failures (collect_list ps r).
Proof.
  induction ps as [|p ps IH]; intros r; [done|].
  change (collect_list (p :: ps) r)
    with (collect_list ps (record_framework_node p.1 p.2 r)).
  destruct (record_framework_node_accumulates p.1 p.2 r) as [Hu Hf].
  destruct (IH (record_framework_node p.1 p.2 r)) as [Hu' Hf'].
  split; etrans; eauto.
Qed.

Lemma times_cons (t x : string) (l : list string) :
  times t (x :: l) = (if decide (x = t) then S (times t l) else times t l).
Proof.
  unfold times. simpl. destruct (decide (x = t)).
  - by rewrite bool_decide_eq_true_2.
  - by rewrite bool_decide_eq_false_2.
Qed.

Lemma times_pos (t : string) (l : list string) : (1 ≤ times t l)%nat ↔ t ∈ l.
Proof.
  induction l as [|x l IH]; simpl.
  - split; [unfold times; simpl; lia|intros H; by apply elem_of_nil in H].
  - rewrite times_cons, elem_of_cons. destruct (decide (x = t)) as [->|Hne].
    + split; [by left|lia].
    + rewrite IH. split; [by right|]. intros [->|H]; done.
Qed.

Lemma failed_tags_cons (p : Placeholder) (ps : list Placeholder) :
  failed_tags (p :: ps)
  = match failure_message p with
    | Some _ => p.1 :: failed_tags ps
    | None => failed_tags ps
    end.
Proof. unfold failed_tags. simpl. by destruct (failure_message p). Qed.

Lemma unsupported_tags_cons (p : Placeholder) (ps : list Placeholder) :
  unsupported_tags (p :: ps)
  = match failure_message p with
    | Some _ => unsupported_tags ps
    | None => p.1 :: unsupported_tags ps
    end.
Proof. unfold unsupported_tags. simpl. by destruct (failure_message p). Qed.

Lemma is_Some_Some_True (x : string) : is_Some (Some x) ↔ True.
Proof. split; eauto. Qed.

Lemma is_Some_None_False : is_Some (@None string) ↔ False.
Proof. split; [intros [? ?]; done|done]. Qed.

Lemma elem_of_unsupported_candidates (ps : list Placeholder) : ∀ before t,
  t ∈ unsupported_candidates before ps
  ↔ t ∈ unsupported_tags ps
    ∨ (2 ≤ times t (failed_tags ps))%nat
    ∨ (is_Some (first_failure t before) ∧ t ∈ failed_tags ps).
Proof.
  induction ps as [|p ps IH]; intros before t.
  - unfold unsupported_tags, failed_tags, times. simpl.
    rewrite !elem_of_nil. intuition lia.
  - cbn [unsupported_candidates].
    rewrite failed_tags_cons, unsupported_tags_cons.
    pose proof (first_failure_snoc t before p) as Hsnoc.
    pose proof (times_pos t (failed_tags ps)) as Hpos.
    destruct (failure_message p) as [m|] eqn:Hm;
      [destruct (first_failure p.1 before) as [m'|] eqn:Hb|];
      rewrite ?elem_of_cons, IH, Hsnoc, ?times_cons, ?elem_of_cons;
      (destruct (decide (p.1 = t)) as [<-|Hne];
       [rewrite ?Hb|destruct (first_failure t before)]);
      rewrite ?is_Some_Some_True, ?is_Some_None_False, <- ?Hpos;
      clear Hpos; intuition (try congruence; try lia).
Qed.

Lemma failure_recorded_iff (ps : list Placeholder) (t : string) :
  is_Some (failures (collect_list ps empty_report) !! t) ↔ t ∈ failed_tags ps.
Proof.
  rewrite failures_collect_list. simpl. rewrite lookup_empty.
  pose proof (first_failure_None t ps) as Hnone.
  destruct (first_failure t ps) as [m|].
  - split; [intros _|eauto].
    destruct (decide (t ∈ failed_tags ps)) as [|Hn]; [done|].
    apply Hnone in Hn. done.
  - split; [intros [? ?]; done|]. intros Hin. by apply Hnone in Hin.
Qed.

Lemma unsupported_listed_iff (ps : list Placeholder) (t : string) :
  t ∈ unsupported_operations (collect_list ps empty_report)
  ↔ t ∈ unsupported_tags ps ∨ (2 ≤ times t (failed_tags ps))%nat.
Proof.
  rewrite unsupported_collect_list_empty, elem_of_first_occurrences,
    elem_of_unsupported_candidates.
  unfold first_failure. simpl. rewrite is_Some_None_False. tauto.
Qed.

Lemma tags_split (ps : list Placeholder) (t : string) :
  t ∈ map fst ps ↔ t ∈ unsupported_tags ps ∨ t ∈ failed_tags ps.
Proof.
  induction ps as [|p ps IH].
  - unfold unsupported_tags, failed_tags. simpl. rewrite !elem_of_nil. tauto.
  - rewrite failed_tags_cons, unsupported_tags_cons. cbn [map].
    destruct (failure_message p); rewrite !elem_of_cons, IH; tauto.
Qed.

(** X1.  The collector only adds to its two output parameters: the
    unsupported list it was given is a prefix of the one it leaves, and
    every binding of the failure map it was given is kept. *)
Theorem collector_accumulates (model : Model) (r : Report) :
  let r' := get_unsupported_operations_and_failures model r in
  unsupported_operations r `prefix_of` unsupported_operations r'
  ∧ failures r ⊆ failures r'.
Proof. cbv zeta. rewrite collector_flat. apply collect_list_accumulates. Qed.

(** X2.  What ends up where, for a collector started on empty outputs: an
    op type is a key of the failure map exactly when some placeholder of
    that type is failed; it is in the unsupported list exactly when some
    placeholder of that type has no failure message or at least two
    placeholders of that type are failed; so it is in both exactly when it
    has a failed placeholder and a second placeholder of either kind. *)
Theorem collector_membership (model : Model) (t : string) :
  let r := get_unsupported_operations_and_failures model empty_report in
  let ps := placeholders model in
  (is_Some (failures r !! t) ↔ t ∈ failed_tags ps)
  ∧ (t ∈ unsupported_operations r
     ↔ t ∈ unsupported_tags ps ∨ (2 ≤ times t (failed_tags ps))%nat)
  ∧ (t ∈ unsupported_operations r ∧ is_Some (failures r !! t)
     ↔ t ∈ failed_tags ps
       ∧ (t ∈ unsupported_tags ps ∨ (2 ≤ times t (failed_tags ps))%nat)).
Proof.
  cbv zeta. rewrite collector_flat.
  rewrite failure_recorded_iff, unsupported_listed_iff. tauto.
Qed.

(** X3.  The collector reports every op type a placeholder carries and no
    other: an op type is in the unsupported list or a key of the failure
    map exactly when some framework node of the graph, at any depth, has
    it. *)
Theorem collector_reports_exactly_the_placeholder_types (model : Model)
    (t : string) :
  let r := get_unsupported_operations_and_failures model empty_report in
  t ∈ unsupported_operations r ∨ is_Some (failures r !! t)
  ↔ t ∈ map fst (placeholders model).
Proof.
  cbv zeta. rewrite collector_flat.
  rewrite failure_recorded_iff, unsupported_listed_iff, tags_split.
  pose proof (times_pos t (failed_tags (placeholders model))) as Hpos.
  rewrite <- Hpos. intuition lia.
Qed.

(** ** Decoding without translation *)

Lemma decode_eq (fe : FrontEnd) (model : InputModelPtr) :
  decode fe model
  = match m_op_translators fe !! "NoOp", m_op_translators fe !! "Placeholder" with
    | Some noop, Some placeholder =>
        lift (get_converted_model model (boundary_translators noop placeholder))
    | _, _ => ([], inl (StdException "map::at"))
    end.
Proof.
  unfold decode, required_types. cbn [for_each].
  destruct (m_op_translators fe !! "NoOp") as [noop|]; [|done].
  rewrite bind_ret_l.
  destruct (m_op_translators fe !! "Placeholder") as [placeholder|]; [|done].
  rewrite !bind_ret_l. unfold lift, boundary_translators. do 2 f_equal.
Qed.

Lemma get_converted_model_not_std (model : InputModelPtr)
    (translator_map : TranslatorDictionaryType) (s : string) :
  get_converted_model model translator_map ≠ inl (StdException s).
Proof. unfold get_converted_model. by destruct (as_InputModel model). Qed.

Lemma decode_raises_at_iff (fe : FrontEnd) (model : InputModelPtr) :
  outcome (decode fe model) = inl (StdException "map::at")
  ↔ m_op_translators fe !! "NoOp" = None
    ∨ m_op_translators fe !! "Placeholder" = None.
Proof.
  rewrite decode_eq.
  destruct (m_op_translators fe !! "NoOp") as [noop|],
           (m_op_translators fe !! "Placeholder") as [placeholder|];
    unfold outcome, lift; cbn [snd]; try tauto.
  split; [|intros [?|?]; done].
  intros H. by apply get_converted_model_not_std in H.
Qed.

(** X4.  [decode] throws the [out_of_range] of [m_op_translators.at]
    exactly when the dictionary has no translator for [NoOp] or none for
    [Placeholder]; it then has run no pass and sent no event, whatever the
    input model is. *)
Theorem decode_raises_iff_boundary_translator_missing (fe : FrontEnd)
    (model : InputModelPtr) :
  (outcome (decode fe model) = inl (StdException "map::at")
   ↔ m_op_translators fe !! "NoOp" = None
     ∨ m_op_translators fe !! "Placeholder" = None)
  ∧ trace (decode fe model) = [].
Proof.
  split; [apply decode_raises_at_iff|].
  rewrite decode_eq.
  by destruct (m_op_translators fe !! "NoOp"),
              (m_op_translators fe !! "Placeholder").
Qed.

(** X5.  When both boundary translators are registered, [decode] is the
    translation session run with a dictionary that holds those two entries
    and nothing else: every other op type of the source graph finds no
    translator there, whatever the front end has registered for it. *)
Theorem decode_uses_only_boundary_translators (fe : FrontEnd)
    (model : InputModelPtr) (noop placeholder : CreatorFunction) :
  m_op_translators fe !! "NoOp" = Some noop →
  m_op_translators fe !! "Placeholder" = Some placeholder →
  ∃ translator_map : TranslatorDictionaryType,
    decode fe model = lift (get_converted_model model translator_map)
    ∧ translator_map !! "NoOp" = Some noop
    ∧ translator_map !! "Placeholder" = Some placeholder
    ∧ ∀ type, type ≠ "NoOp" → type ≠ "Placeholder" →
              translator_map !! type = None.
Proof.
  intros Hnoop Hplaceholder. exists (boundary_translators noop placeholder).
  rewrite decode_eq, Hnoop, Hplaceholder. unfold boundary_translators.
  split; [done|]. split; [|split].
  - rewrite lookup_insert_ne by done. apply lookup_singleton_eq.
  - apply lookup_insert_eq.
  - intros type H1 H2. rewrite lookup_insert_ne by done.
    by apply lookup_singleton_ne.
Qed.

Lemma decode_uses_only_boundary_translators_witness :
  ∃ translator_map : TranslatorDictionaryType,
    decode extension_frontend (InputModelTF unknown_op_graph)
    = lift (get_converted_model (InputModelTF unknown_op_graph) translator_map)
    ∧ translator_map !! "UnknownOp" = None.
Proof.
  destruct (decode_uses_only_boundary_translators extension_frontend
              (InputModelTF unknown_op_graph) _ _ eq_refl eq_refl)
    as (translator_map & Heq & _ & _ & Hother).
  exists translator_map. split; [exact Heq|]. by apply Hother.
Defined.

(** ** Partial and strict conversion, case by case *)

Lemma for_each_silent {A S} (xs : list A) (body : A → S → M S) :
  (∀ x s, trace (body x s) = []) → ∀ s, trace (for_each xs body s) = [].
Proof.
  intros Hbody. induction xs as [|x xs IH]; intros s; simpl; [done|].
  specialize (Hbody x s). destruct (body x s) as [t [e|s']]; simpl in *; [done|].
  specialize (IH s'). destruct (for_each xs body s') as [t' r]. simpl in *.
  by rewrite Hbody, IH.
Qed.

Lemma retranslate_nodes_silent (fe : FrontEnd) (nodes : list Node)
    (g : NodeVector) :
  trace (retranslate_nodes fe nodes g) = [].
Proof.
  unfold retranslate_nodes. apply for_each_silent. intros node h.
  by destruct (is_FrameworkNode node).
Qed.

Lemma silent_eq {A} (c : M A) : trace c = [] → c = ([], outcome c).
Proof. destruct c as [t r]. simpl. by intros ->. Qed.

Lemma for_each_app {A S} (xs ys : list A) (body : A → S → M S) :
  ∀ s, for_each (xs ++ ys) body s
       = bind (for_each xs body s) (for_each ys body).
Proof.
  induction xs as [|x xs IH]; intros s; cbn [app for_each].
  - by rewrite bind_ret_l.
  - rewrite bind_assoc. apply bind_ext. intros s'. apply IH.
Qed.

Lemma retranslate_nodes_skips (fe : FrontEnd) (xs : list Node)
    (g : NodeVector) :
  Forall (fun n => is_FrameworkNode n = false) xs →
  retranslate_nodes fe xs g = ret g.
Proof.
  unfold retranslate_nodes.
  induction 1 as [|n xs Hn _ IH]; simpl; [done|].
  by rewrite Hn, bind_ret_l.
Qed.

Lemma retranslate_nodes_stops (fe : FrontEnd) (pre post : list Node)
    (node : Node) (g g_pre : NodeVector) (e : Exn) :
  outcome (retranslate_nodes fe pre g) = inr g_pre →
  is_FrameworkNode node = true →
  translate_framework_node node (m_op_translators fe) g_pre = inl e →
  retranslate_nodes fe (pre ++ node :: post) g = ([], inl e).
Proof.
  intros Hpre Hfw Hraise.
  pose proof (silent_eq _ (retranslate_nodes_silent fe pre g)) as Hrun.
  rewrite Hpre in Hrun. unfold retranslate_nodes in *.
  rewrite for_each_app, Hrun.
  change ([], inr g_pre) with (ret (A := NodeVector) g_pre).
  rewrite bind_ret_l. cbn [for_each]. by rewrite Hfw, Hraise.
Qed.

Lemma decode_silent (fe : FrontEnd) (model : InputModelPtr) :
  trace (decode fe model) = [].
Proof.
  rewrite decode_eq.
  by destruct (m_op_translators fe !! "NoOp"),
              (m_op_translators fe !! "Placeholder").
Qed.

Lemma convert_partially_extensions_eq (passes : PassLibrary)
    (sorter : TopologicalSorter) (fe : FrontEnd) (nodes : list Decoder)
    (decoded : Model) :
  m_transformation_extensions fe ≠ [] →
  outcome (decode fe (InputModelTF nodes)) = inr decoded →
  let function :=
    after_extension_passes (m_transformation_extensions fe) decoded in
  convert_partially passes sorter fe (InputModelTF nodes)
  = bind (extension_pass_events (m_transformation_extensions fe),
          outcome (retranslate_nodes fe (get_ordered_ops function) function))
         (fun g => normalize passes (ordered_ops_after sorter function g)).
Proof.
  intros Hext Hdecode function. unfold convert_partially, convert_model.
  cbn [as_InputModel].
  destruct (m_transformation_extensions fe) as [|ext exts] eqn:Hexts; [done|].
  rewrite (silent_eq _ (decode_silent fe (InputModelTF nodes))), Hdecode.
  rewrite bind_value, app_nil_l. unfold run_passes.
  rewrite bind_value. unfold trace at 1, outcome at 1. cbn [fst snd].
  fold (after_extension_passes (ext :: exts) decoded).
  fold (extension_pass_events (ext :: exts)). fold function.
  rewrite bind_ret_r.
  fold (retranslate_nodes fe (get_ordered_ops function) function).
  pose proof (retranslate_nodes_silent fe (get_ordered_ops function) function)
    as Hsilent.
  destruct (retranslate_nodes fe (get_ordered_ops function) function)
    as [t0 [e|g]]; unfold trace in Hsilent; cbn [fst] in Hsilent; subst t0;
    unfold trace, outcome; cbn [bind fst snd]; [by rewrite app_nil_r|].
  by destruct (normalize passes (ordered_ops_after sorter function g)).
Qed.



(** X7.  The re-translation stops at the first framework node, among the
    operations the extensions' passes left, that it cannot translate, the
    framework nodes before it having been re-translated: [convert_partially]
    raises with the passes of the extensions run and no normalization pass.
    It raises the failure about the missing translator when none is
    registered for the node's op type, and otherwise, when the registered
    translator throws on the inputs the node has by then, the translator's
    own exception, which is not turned into a failed placeholder here. *)
Theorem retry_stops_at_first_failing_node (passes : PassLibrary)
    (sorter : TopologicalSorter) (fe : FrontEnd) (nodes : list Decoder)
    (decoded : Model) (pre post : list Node) (g_pre : NodeVector)
    (i : nat) (d : Decoder) (a : gmap string string)
    (ins : OutputVector) (k : nat) (bodies : list (list Node)) :
  m_transformation_extensions fe ≠ [] →
  outcome (decode fe (InputModelTF nodes)) = inr decoded →
  let function :=
    after_extension_passes (m_transformation_extensions fe) decoded in
  let node := FrameworkNode i d a ins k bodies in
  get_ordered_ops function = pre ++ node :: post →
  outcome (retranslate_nodes fe pre function) = inr g_pre →
  (m_op_translators fe !! get_op_type d = None →
     convert_partially passes sorter fe (InputModelTF nodes)
     = (extension_pass_events (m_transformation_extensions fe),
        inl (OpConversionFailure (no_translator_message (get_op_type d)))))
  ∧ (∀ translator e,
       m_op_translators fe !! get_op_type d = Some translator →
       call_creator translator (mkNodeContext d (input_values g_pre node))
                    (fresh_id g_pre) = inl e →
       convert_partially passes sorter fe (InputModelTF nodes)
       = (extension_pass_events (m_transformation_extensions fe), inl e)).
Proof.
  intros Hext Hdecode function node Hops Hpre.
  rewrite (convert_partially_extensions_eq passes sorter fe nodes decoded
             Hext Hdecode).
  cbv zeta. fold function. rewrite Hops.
  assert (Hstop : ∀ e,
            translate_framework_node node (m_op_translators fe) g_pre
            = inl e →
            bind (extension_pass_events (m_transformation_extensions fe),
                  outcome (retranslate_nodes fe (pre ++ node :: post) function))
                 (fun g => normalize passes
                             (ordered_ops_after sorter function g))
            = (extension_pass_events (m_transformation_extensions fe), inl e)).
  { intros e Hraise.
    by rewrite (retranslate_nodes_stops fe pre post node function g_pre e
                  Hpre eq_refl Hraise). }
  unfold node in *. split.
  - intros Hnone. apply Hstop. unfold translate_framework_node.
    by rewrite Hnone.
  - intros translator e Hsome Hcall. apply Hstop.
    unfold translate_framework_node. by rewrite Hsome, Hcall.
Qed.

Lemma retry_stops_at_first_failing_node_witness :
  convert_partially identity_passes sample_sorter pass_frontend
                    (InputModelTF relu_then_unknown_graph)
  = ([EvPass "CustomPass"],
     inl (OpConversionFailure "No translator found for UnknownOp node.")).
Proof.
  assert (m_transformation_extensions pass_frontend ≠ []) as Hext by done.
  assert (outcome (decode pass_frontend (InputModelTF relu_then_unknown_graph))
          = inr relu_then_unknown_decoded) as Hdecode
    by (vm_compute; reflexivity).
  assert (outcome (retranslate_nodes pass_frontend
                     [FrameworkNode 1 (mkDecoder "Relu" [] [] 1 []) ∅ [] 1 []]
                     relu_then_unknown_decoded)
          = inr [ FrameworkNode 1 (mkDecoder "Relu" [] [] 1 []) ∅ [] 1 [];
                  FrameworkNode 2 (mkDecoder "UnknownOp" [(0, 0)] [] 1 []) ∅
                                [(3, 0)] 1 [];
                  Op 3 "Relu" [] 1 ]) as Hpre by (vm_compute; reflexivity).
  assert (m_op_translators pass_frontend !! "UnknownOp" = None) as Hnone
    by (vm_compute; reflexivity).
  rewrite (proj1 (retry_stops_at_first_failing_node identity_passes
                    sample_sorter pass_frontend relu_then_unknown_graph
                    relu_then_unknown_decoded
                    [FrameworkNode 1 (mkDecoder "Relu" [] [] 1 []) ∅ [] 1 []]
                    [] _ 2 (mkDecoder "UnknownOp" [(0, 0)] [] 1 []) ∅
                    [(1, 0)] 1 [] Hext Hdecode eq_refl Hpre) Hnone).
  reflexivity.
Defined.

(** X8.  [convert(const std::shared_ptr<ov::Model>&)] on a graph none of
    whose own operations is a framework node re-translates nothing, with or
    without translators: it is [normalize].  Framework nodes inside nested
    subgraphs are not visited by its loop. *)
Theorem convert_model_without_placeholders (passes : PassLibrary)
    (sorter : TopologicalSorter) (fe : FrontEnd)
    (partiallyConverted : Model) :
  Forall (fun n => is_FrameworkNode n = false)
         (get_ordered_ops partiallyConverted) →
  convert_model passes sorter fe partiallyConverted
  = normalize passes partiallyConverted.
Proof.
  intros Hops. unfold convert_model.
  fold (retranslate_nodes fe (get_ordered_ops partiallyConverted)
                          partiallyConverted).
  rewrite (retranslate_nodes_skips fe _ partiallyConverted Hops), bind_ret_l.
  by rewrite ordered_ops_unchanged.
Qed.

Lemma convert_model_without_placeholders_witness :
  framework_nodes nested_unsupported_model = 1
  ∧ convert_model identity_passes sample_sorter bare_frontend
                  nested_unsupported_model
    = normalize identity_passes nested_unsupported_model.
Proof.
  split; [reflexivity|].
  apply (convert_model_without_placeholders identity_passes sample_sorter
           bare_frontend nested_unsupported_model).
  repeat constructor.
Defined.

(** X9.  A model handle that is not a TensorFlow input model makes both
    [convert_partially] and [convert] raise the general failure "Invalid
    input model" before anything else happens: no pass has run and no
    telemetry event was sent, whatever is registered in the front end. *)
Theorem invalid_input_model_is_rejected_first (passes : PassLibrary)
    (order : gmap string string → list (string * string))
    (sorter : TopologicalSorter) (fe : FrontEnd) :
  convert_partially passes sorter fe InputModelOther
  = ([], inl (GeneralFailure "Invalid input model"))
  ∧ convert passes order sorter fe InputModelOther
    = ([], inl (GeneralFailure "Invalid input model")).
Proof.
  assert (convert_partially passes sorter fe InputModelOther
          = ([], inl (GeneralFailure "Invalid input model"))) as Hpart
    by reflexivity.
  split; [done|]. by rewrite convert_eq, Hpart.
Qed.

(** X10.  Without a telemetry extension [convert] sends no telemetry event,
    whether it returns or raises. *)
Theorem convert_without_sink_sends_nothing (passes : PassLibrary)
    (order : gmap string string → list (string * string))
    (sorter : TopologicalSorter) (fe : FrontEnd) (model : InputModelPtr) :
  m_telemetry fe = None →
  telemetry_events (trace (convert passes order sorter fe model)) = [].
Proof.
  intros Htel. rewrite convert_eq.
  apply (no_telemetry_bind (convert_partially passes sorter fe model)
                           (strict_check order fe)).
  - apply no_telemetry_convert_partially.
  - intros f. unfold no_telemetry, strict_check, trace. cbn [fst].
    by rewrite Htel.
Qed.

Lemma convert_without_sink_sends_nothing_witness :
  outcome (convert identity_passes map_to_list sample_sorter bare_frontend
                   (InputModelTF unknown_op_graph))
  = inl (OpConversionFailure
           "[TensorFlow Frontend] Internal error: No translator found for UnknownOp node.")
  ∧ telemetry_events (trace (convert identity_passes map_to_list
                                     sample_sorter bare_frontend
                                     (InputModelTF unknown_op_graph))) = [].
Proof.
  split; [vm_compute; reflexivity|].
  apply (convert_without_sink_sends_nothing identity_passes map_to_list
                                            sample_sorter
           bare_frontend (InputModelTF unknown_op_graph)).
  reflexivity.
Defined.

(** X11.  When [convert] returns, it returns the graph [convert_partially]
    returned, with the effects of [convert_partially] and none of its own:
    the collector found nothing in that graph and no telemetry event was
    sent, with or without a telemetry extension. *)
Theorem convert_success_is_partial_conversion (passes : PassLibrary)
    (order : gmap string string → list (string * string))
    (sorter : TopologicalSorter) (fe : FrontEnd) (model : InputModelPtr)
    (t : list Event) (f : Model) :
  convert passes order sorter fe model = (t, inr f) →
  convert_partially passes sorter fe model = (t, inr f)
  ∧ clean f
  ∧ telemetry_events t = [].
Proof.
  rewrite convert_eq. intros Hconv.
  pose proof (no_telemetry_convert_partially passes sorter fe model) as Hquiet.
  destruct (convert_partially passes sorter fe model) as [t0 [e|g]]; [done|].
  rewrite bind_value in Hconv. unfold trace, outcome, strict_check in Hconv.
  cbn [fst snd] in Hconv.
  destruct (decide (clean g)) as [Hc|Hc]; [|done].
  injection Hconv as <- <-.
  destruct Hc as [Hu Hf]. unfold error_cause_events. rewrite Hu. cbn [map].
  assert ((match m_telemetry fe with Some _ => [] | None => [] end)
          = ([] : list Event)) as -> by (by destruct (m_telemetry fe)).
  rewrite app_nil_r. split; [done|]. split; [by split|exact Hquiet].
Qed.

Lemma convert_success_is_partial_conversion_witness :
  convert_partially identity_passes
                    sample_sorter const_frontend (InputModelTF const_graph)
  = (stage_A_events ++ stage_B_events, inr [Op 1 "Constant" [] 1]).
Proof.
  apply (convert_success_is_partial_conversion identity_passes map_to_list
                                               sample_sorter
           const_frontend (InputModelTF const_graph)).
  vm_compute. reflexivity.
Defined.

(** ** The extension registry only grows *)

Lemma set_op_translator_keeps (type t : string) (c : CreatorFunction)
    (fe : FrontEnd) :
  is_Some (m_op_translators fe !! t) →
  is_Some (m_op_translators (set_op_translator type c fe) !! t).
Proof.
  intros Hsome. unfold set_op_translator. cbn [m_op_translators].
  destruct (decide (type = t)) as [->|Hne].
  - rewrite lookup_insert_eq. eauto.
  - by rewrite lookup_insert_ne.
Qed.

Lemma add_extension_monotone : ∀ (extension : Extension) (fe : FrontEnd),
  (∀ t, is_Some (m_op_translators fe !! t) →
        is_Some (m_op_translators (add_extension extension fe) !! t))
  ∧ m_transformation_extensions fe
      `prefix_of` m_transformation_extensions (add_extension extension fe)
  ∧ m_extensions fe `prefix_of` m_extensions (add_extension extension fe)
  ∧ m_conversion_extensions fe
      `prefix_of` m_conversion_extensions (add_extension extension fe).
Proof.
  fix IH 1. intros [tel tr so conv tf] fe.
  destruct tel as [tel|]; [simpl; done|].
  destruct tr as [tr|]; [simpl; repeat split; try done; by apply prefix_app_r|].
  destruct so as [inner|].
  { destruct (IH inner fe) as (Hreg & Htr & Hext & Hconv).
    cbn [add_extension m_op_translators m_transformation_extensions
         m_extensions m_conversion_extensions].
    repeat split; try done. by apply prefix_app_r. }
  destruct conv as [conv|].
  { cbn [add_extension].
    destruct (frontend.get_converter conv) as [converter|];
      [|destruct (frontend.get_converter_named_and_indexed conv)
          as [converter|]];
      repeat split; try done;
      try (intros t Ht; by apply set_op_translator_keeps);
      cbn [set_op_translator push_conversion_extension m_conversion_extensions];
      by apply prefix_app_r. }
  destruct tf as [tf|]; [|simpl; done].
  cbn [add_extension]. repeat split; try done.
  - intros t Ht. by apply set_op_translator_keeps.
  - cbn [set_op_translator push_conversion_extension m_conversion_extensions].
    by apply prefix_app_r.
Qed.

Lemma add_extensions_monotone (extensions : list Extension) : ∀ fe : FrontEnd,
  (∀ t, is_Some (m_op_translators fe !! t) →
        is_Some (m_op_translators (add_extensions extensions fe) !! t))
  ∧ m_transformation_extensions fe
      `prefix_of` m_transformation_extensions (add_extensions extensions fe)
  ∧ m_extensions fe `prefix_of` m_extensions (add_extensions extensions fe)
  ∧ m_conversion_extensions fe
      `prefix_of` m_conversion_extensions (add_extensions extensions fe).
Proof.
  induction extensions as [|extension extensions IH]; intros fe.
  - by cbn.
  - cbn [add_extensions fold_left]. fold (add_extensions extensions).
    destruct (add_extension_monotone extension fe) as (H1 & H2 & H3 & H4).
    destruct (IH (add_extension extension fe)) as (G1 & G2 & G3 & G4).
    repeat split.
    + intros t Ht. by apply G1, H1.
    + by etrans.
    + by etrans.
    + by etrans.
Qed.

(** X12.  Whatever extensions are added, shared-object extensions wrapping
    other extensions to any depth included, [add_extension] never
    unregisters an op type and never drops or reorders an extension it has
    stored: every op type with a translator keeps one, and each of the
    three stored lists keeps what it held as a prefix. *)
Theorem add_extension_only_adds (extensions : list Extension) (fe : FrontEnd) :
  let fe' := add_extensions extensions fe in
  (∀ t, is_Some (m_op_translators fe !! t) →
        is_Some (m_op_translators fe' !! t))
  ∧ m_transformation_extensions fe `prefix_of` m_transformation_extensions fe'
  ∧ m_extensions fe `prefix_of` m_extensions fe'
  ∧ m_conversion_extensions fe `prefix_of` m_conversion_extensions fe'.
Proof. apply add_extensions_monotone. Qed.

(** X13.  A front end constructed over an op table that has translators
    for [NoOp] and [Placeholder] never throws the [out_of_range] of
    [m_op_translators.at] from [decode], whatever extensions were added to
    it since its construction: [decode] is then the translation session
    run with the two boundary translators the front end holds by then. *)
Theorem decode_finds_boundary_translators
    (supported_ops : TranslatorDictionaryType)
    (extensions : list Extension) (model : InputModelPtr) :
  is_Some (supported_ops !! "NoOp") →
  is_Some (supported_ops !! "Placeholder") →
  let fe := add_extensions extensions (new_FrontEnd supported_ops) in
  (∃ noop placeholder,
     m_op_translators fe !! "NoOp" = Some noop
     ∧ m_op_translators fe !! "Placeholder" = Some placeholder
     ∧ decode fe model
       = lift (get_converted_model model
                                   (boundary_translators noop placeholder)))
  ∧ outcome (decode fe model) ≠ inl (StdException "map::at").
Proof.
  intros Hnoop Hplaceholder fe.
  destruct (add_extensions_monotone extensions (new_FrontEnd supported_ops))
    as (Hkeep & _).
  apply Hkeep in Hnoop as [noop Hnoop], Hplaceholder as [placeholder Hplaceholder].
  fold fe in Hnoop, Hplaceholder. split.
  - exists noop, placeholder. by rewrite decode_eq, Hnoop, Hplaceholder.
  - intros Hraise. apply decode_raises_at_iff in Hraise.
    destruct Hraise as [Hnone|Hnone]; congruence.
Qed.

Lemma decode_finds_boundary_translators_witness :
  outcome (decode (add_extensions
                     [mkExtension None None None None
                        (Some (tensorflow.mkConversionExtension
                                 "NoOp" translate_const))]
                     (new_FrontEnd (m_op_translators extension_frontend)))
                  (InputModelTF unknown_op_graph))
  ≠ inl (StdException "map::at").
Proof.
  apply (decode_finds_boundary_translators
           (m_op_translators extension_frontend)).
  - vm_compute. eauto.
  - vm_compute. eauto.
Defined.

(** X14.  What a conversion extension registers.  A generic conversion
    extension with an indexed converter registers that converter for its op
    type, whether or not it also has a named-and-indexed one; with only a
    named-and-indexed converter it registers that one; a TensorFlow
    conversion extension registers its converter.  In each case a
    translator registered before for the same op type is replaced, the
    translators of all other op types are untouched, and a TensorFlow
    conversion capability of an object that is also a generic conversion
    extension is not looked at. *)
Theorem add_extension_registers_converter (fe : FrontEnd) (type : string)
    (indexed : CreatorFunctionIndexed)
    (named : option (NodeContext → nat
                     → Result (list Node * list (string * OutputVector))))
    (named_and_indexed : CreatorFunctionNamedAndIndexed)
    (other_indexed : option CreatorFunctionNamedAndIndexed)
    (converter : CreatorFunction)
    (other : option tensorflow.ConversionExtension) :
  let with_indexed :=
    mkExtension None None None
      (Some (frontend.mkConversionExtension type (Some indexed) named
                                            other_indexed)) other in
  let with_named_and_indexed :=
    mkExtension None None None
      (Some (frontend.mkConversionExtension type None named
                                            (Some named_and_indexed))) other in
  let tensorflow_one :=
    mkExtension None None None None
      (Some (tensorflow.mkConversionExtension type converter)) in
  (∀ t, m_op_translators (add_extension with_indexed fe) !! t
        = if decide (t = type) then Some (Indexed indexed)
          else m_op_translators fe !! t)
  ∧ (∀ t, m_op_translators (add_extension with_named_and_indexed fe) !! t
          = if decide (t = type) then Some (NamedAndIndexed named_and_indexed)
            else m_op_translators fe !! t)
  ∧ (∀ t, m_op_translators (add_extension tensorflow_one fe) !! t
          = if decide (t = type) then Some converter
            else m_op_translators fe !! t).
Proof.
  cbv zeta. cbn [add_extension frontend.get_converter
    frontend.get_converter_named_and_indexed frontend.get_op_type
    tensorflow.get_converter tensorflow.get_op_type set_op_translator
    push_conversion_extension m_op_translators].
  repeat split; intros t; (destruct (decide (t = type)) as [->|Hne];
    [apply lookup_insert_eq|by apply lookup_insert_ne]).
Qed.

(** ** Recognizing and loading a model *)

Lemma variants_shape (variants : list Any) :
  (length variants =? 1 + extra_variants_num variants)%nat = true →
  ∃ v, variants = [v] ∨ ∃ b, variants = [v; AnyBool b].
Proof.
  intros Hsize. apply Nat.eqb_eq in Hsize.
  destruct variants as [|v [|w [|x rest]]].
  - discriminate Hsize.
  - eauto.
  - exists v. right. unfold extra_variants_num in Hsize. cbn in Hsize.
    destruct w; try discriminate Hsize. eauto.
  - exfalso. unfold extra_variants_num in Hsize.
    destruct (last (v :: w :: x :: rest)) as [[]|]; cbn in Hsize; lia.
Qed.

(** X15.  Whatever [supported_impl] accepts, [load_impl] goes on to load:
    when the first returns [true] on some variants, the second does not
    raise its failure about an inconsistent input model on them but
    constructs an input model. *)
Theorem supported_model_is_loaded (files : ModelFiles) (fe : FrontEnd)
    (variants : list Any) :
  supported_impl files variants = true →
  ∃ input_model, load_impl files fe variants = inr input_model.
Proof.
  unfold supported_impl, load_impl.
  destruct (negb _); [done|].
  destruct (variants !! 0) as [[model_path|b|graph_iterator|]|]; try done;
    [|eauto].
  destruct (GraphIteratorProto_is_supported files model_path); [eauto|].
  rewrite andb_false_r.
  destruct (GraphIteratorSavedModel_is_supported files model_path); [eauto|].
  destruct (GraphIteratorProtoTxt_is_supported files model_path); [eauto|done].
Qed.

Lemma supported_model_is_loaded_witness :
  ∃ input_model,
    load_impl sample_files bare_frontend [AnyString "saved_model"; AnyBool true]
    = inr input_model.
Proof.
  apply (supported_model_is_loaded sample_files bare_frontend
           [AnyString "saved_model"; AnyBool true]).
  reflexivity.
Defined.

(** X16.  A trailing boolean variant changes nothing: with or without it,
    [supported_impl] gives the same answer and [load_impl] the same input
    model or the same error. *)
Theorem trailing_flag_is_ignored (files : ModelFiles) (fe : FrontEnd)
    (v : Any) (b : bool) :
  supported_impl files [v; AnyBool b] = supported_impl files [v]
  ∧ load_impl files fe [v; AnyBool b] = load_impl files fe [v].
Proof.
  destruct v; split; reflexivity.
Qed.

(** X17.  [load_impl] constructs an input model only for one variant, or
    for two of which the second is a boolean; on every other call it raises
    the general failure about an inconsistent input model, its only
    failure.  So the tags of a SavedModel are never read from the variants:
    a SavedModel iterator is always constructed with the tag [serve], and
    the input model always gets the telemetry extension of the front
    end. *)
Theorem load_impl_takes_one_model (files : ModelFiles) (fe : FrontEnd)
    (variants : list Any) :
  match load_impl files fe variants with
  | inr input_model =>
      (∃ v, variants = [v] ∨ ∃ b, variants = [v; AnyBool b])
      ∧ im_telemetry input_model = m_telemetry fe
      ∧ ∀ model_path tags,
          im_graph_iterator input_model
          = GraphIteratorSavedModel model_path tags → tags = "serve"
  | inl e => e = GeneralFailure inconsistent_input_model
  end.
Proof.
  unfold load_impl.
  destruct (length variants =? 1 + extra_variants_num variants)%nat eqn:Hsize;
    [|done].
  apply variants_shape in Hsize as [v Hshape]. cbn [negb].
  assert (Hshape' : ∃ v, variants = [v] ∨ ∃ b, variants = [v; AnyBool b])
    by eauto.
  assert (Htags : match variants !! 1 with
                  | Some (AnyString _) => False
                  | _ => True
                  end).
  { destruct Hshape as [->|[b ->]]; done. }
  destruct (variants !! 0) as [[model_path|b|graph_iterator|]|]; try done.
  destruct (GraphIteratorProto_is_supported files model_path); [done|].
  destruct (GraphIteratorSavedModel_is_supported files model_path).
  { split; [done|]. split; [done|]. intros p tags.
    destruct (variants !! 1) as [[]|]; try done; cbn; congruence. }
  by destruct (GraphIteratorProtoTxt_is_supported files model_path).
Qed.

(** X18.  [load_impl] loads a binary protobuf whatever its file name is,
    while [supported_impl] only recognizes it under the suffix [.pb]: for a
    path without that suffix that is neither a SavedModel nor a text
    protobuf, [supported_impl] answers [false] and [load_impl] constructs
    the input model over the protobuf. *)
Theorem load_impl_accepts_unrecognized_protobuf (files : ModelFiles)
    (fe : FrontEnd) (model_path : string) :
  ends_with files model_path ".pb" = false →
  GraphIteratorProto_is_supported files model_path = true →
  GraphIteratorSavedModel_is_supported files model_path = false →
  GraphIteratorProtoTxt_is_supported files model_path = false →
  supported_impl files [AnyString model_path] = false
  ∧ load_impl files fe [AnyString model_path]
    = inr (mkInputModel (GraphIteratorProto model_path) (m_telemetry fe) false).
Proof.
  intros Hsuffix Hproto Hsaved Htxt. unfold supported_impl, load_impl. cbn.
  by rewrite Hsuffix, Hproto, Hsaved, Htxt.
Qed.

Lemma load_impl_accepts_unrecognized_protobuf_witness :
  supported_impl sample_files [AnyString "frozen_graph"] = false
  ∧ load_impl sample_files bare_frontend [AnyString "frozen_graph"]
    = inr (mkInputModel (GraphIteratorProto "frozen_graph") None false).
Proof.
  apply (load_impl_accepts_unrecognized_protobuf sample_files bare_frontend
           "frozen_graph"); reflexivity.
Defined.

(** ** What re-translation leaves alone *)

Lemma replace_outputs_frame (i : nat) :
  ∀ (news : NamedOutputVector) (olds : OutputVector) (g : NodeVector),
    Forall (fun old => old.1 = i) olds →
    ∃ f : Output → Output,
      replace_outputs news olds g = map (map_inputs f) g
      ∧ ∀ src : Output, src.1 ≠ i → f src = src.
Proof.
  assert (Hid : ∀ g : NodeVector, g = map (map_inputs (fun src => src)) g).
  { intros g. rewrite <- (map_id g) at 1. apply map_ext. intros n.
    symmetry. by apply map_inputs_id. }
  induction news as [|new news IH]; intros olds g Holds.
  - exists (fun src => src). split; [apply Hid|done].
  - destruct olds as [|old olds].
    + exists (fun src => src). split; [apply Hid|done].
    + apply Forall_cons in Holds as [Hold Holds]. cbn [replace_outputs].
      destruct (IH olds (replace old (port new) g) Holds) as (f & -> & Hf).
      exists (fun src => f (if decide (src = old) then port new else src)).
      split.
      * unfold replace. rewrite map_map. apply map_ext. intros n.
        apply map_inputs_compose.
      * intros src Hsrc. rewrite decide_False by congruence. by apply Hf.
Qed.

Lemma lookup_map_Some {A B} (f : A → B) (l : list A) (q : nat) (x : A) :
  l !! q = Some x → map f l !! q = Some (f x).
Proof.
  intros Hq. change (map f l) with (f <$> l).
  by rewrite list_lookup_fmap, Hq.
Qed.

Lemma elem_of_map_2 {A B} (f : A → B) (l : list A) (x : A) :
  x ∈ l → f x ∈ map f l.
Proof.
  induction l as [|y l IH]; intros Hin.
  - by apply elem_of_nil in Hin.
  - cbn [map]. apply elem_of_cons in Hin as [->|Hin]; apply elem_of_cons.
    + by left.
    + right. by apply IH.
Qed.

Lemma outputs_of_node (node : Node) :
  Forall (fun old : Output => old.1 = node_id node) (outputs node).
Proof.
  unfold outputs. apply Forall_forall. intros old Hin.
  apply list_elem_of_fmap in Hin as (j & -> & _). done.
Qed.

(** X19.  The re-translation of a framework node only redirects inputs
    that read the framework node.  Each node object alive when it is called
    is alive when it returns, with the identity, the kind and the numbers
    of inputs and outputs it had, and every one of its inputs whose source
    is an output of another node than the re-translated one has the source
    it had, whatever the translator built and returned.  (This is about the
    node objects, not about the ordered operations of the model: whether
    and where [get_ordered_ops] lists a node afterwards is not said.) *)
Theorem translate_framework_node_frame (i : nat) (d : Decoder)
    (a : gmap string string) (ins : OutputVector) (k : nat)
    (bodies : list (list Node)) (op_translators : TranslatorDictionaryType)
    (g g' : NodeVector) :
  translate_framework_node (FrameworkNode i d a ins k bodies) op_translators g
  = inr g' →
  ∀ n, n ∈ g →
    ∃ n', n' ∈ g'
          ∧ node_id n' = node_id n
          ∧ is_FrameworkNode n' = is_FrameworkNode n
          ∧ get_output_size n' = get_output_size n
          ∧ length (node_inputs n') = length (node_inputs n)
          ∧ ∀ q src, node_inputs n !! q = Some src → src.1 ≠ i →
                     node_inputs n' !! q = Some src.
Proof.
  unfold translate_framework_node.
  destruct (op_translators !! get_op_type d) as [translator|]; [|done].
  destruct (call_creator _ _ _) as [e|[built news]]; [done|].
  intros [= <-] n Hn.
  destruct (replace_outputs_frame i news
              (outputs (FrameworkNode i d a ins k bodies)) (g ++ built)
              (outputs_of_node (FrameworkNode i d a ins k bodies)))
    as (f & -> & Hf).
  exists (map_inputs f n). split.
  { apply elem_of_map_2, elem_of_app. by left. }
  destruct n as [j t inputs size|j t inputs size b|j dec attrs inputs size b];
    cbn [map_inputs node_id is_FrameworkNode get_output_size node_inputs];
    (do 3 (split; [done|])); (split; [apply length_map|]);
    intros q src Hq Hsrc;
    pose proof (lookup_map_Some f _ _ _ Hq) as Hq';
    rewrite (Hf src Hsrc) in Hq'; exact Hq'.
Qed.

Lemma translate_framework_node_frame_witness :
  ∃ n', n' ∈ [ Op 1 "Parameter" [] 1;
               FrameworkNode 2 relu_decoder ∅ [(1, 0)] 2 [];
               Op 3 "Add" [(1, 0); (5, 0)] 1;
               Op 4 "Result" [(3, 0)] 0;
               Op 5 "Relu" [(1, 0)] 1 ]
        ∧ node_id n' = 3 ∧ node_inputs n' !! 0 = Some (1, 0).
Proof.
  assert (translate_framework_node (FrameworkNode 2 relu_decoder ∅ [(1, 0)] 2 [])
            relu_translators
            [ Op 1 "Parameter" [] 1;
              FrameworkNode 2 relu_decoder ∅ [(1, 0)] 2 [];
              Op 3 "Add" [(1, 0); (2, 0)] 1;
              Op 4 "Result" [(3, 0)] 0 ]
          = inr [ Op 1 "Parameter" [] 1;
                  FrameworkNode 2 relu_decoder ∅ [(1, 0)] 2 [];
                  Op 3 "Add" [(1, 0); (5, 0)] 1;
                  Op 4 "Result" [(3, 0)] 0;
                  Op 5 "Relu" [(1, 0)] 1 ]) as Hret by (vm_compute; reflexivity).
  assert (Op 3 "Add" [(1, 0); (2, 0)] 1
          ∈ [ Op 1 "Parameter" [] 1;
              FrameworkNode 2 relu_decoder ∅ [(1, 0)] 2 [];
              Op 3 "Add" [(1, 0); (2, 0)] 1;
              Op 4 "Result" [(3, 0)] 0 ]) as Hin
    by (do 2 (apply elem_of_cons; right); apply elem_of_cons; by left).
  destruct (translate_framework_node_frame 2 relu_decoder ∅ [(1, 0)] 2 []
              relu_translators _ _ Hret _ Hin)
    as (n' & Hn' & Hid & _ & _ & _ & Hframe).
  exists n'. split; [exact Hn'|]. split; [exact Hid|].
  apply Hframe; [reflexivity|]. simpl. lia.
Defined.
